(** * QtEditorialTimelineWidget: the timeline model and its frame arithmetic

    A shallow embedding of [QtEditorialTimelineWidget.py]: the theme merge
    ([get_theme]), the data classes ([TrackData], [ClipData]), the frame/pixel
    arithmetic that the graphics items repeat, the release handler of a
    dragged clip ([ClipItem.mouseReleaseEvent]) and the state-changing methods
    of [TimelineView].

    Numbers.  Python frames that are always [int] (clip start and duration,
    the result of [round]) are [Z].  Values that may be a [float] (pixel
    positions, zoom factors, the playhead and end frame as stored by the
    setters) are exact rationals [Q]: an [int] [n] is [inject_Z n], and float
    arithmetic is taken without its rounding error.  An equation between
    such values is stated with [=] where both sides evaluate the same
    expression, and with [==] only where it is meant over exact arithmetic.

    Objects.  [TrackData] and [ClipData] instances are mutable and shared
    between the view, the track lists and the graphics items, so they live in
    a store and are named by their index there. *)

From Stdlib Require Import ZArith QArith Qfield Lia.
From stdpp Require Import base option list strings pretty gmap fin_maps.

Local Open Scope Z_scope.

(** ** Theme dictionaries *)

Module Theme.

(** A value held by a theme dictionary: a colour string or a layout number. *)
Inductive value : Type :=
| VStr (s : string)
| VInt (n : Z).

#[global] Instance value_eq_dec : EqDecision value.
Proof. solve_decision. Defined.

(** [DEFAULT_CONSTANTS] *)
Definition DEFAULT_CONSTANTS : gmap string value :=
  list_to_map
    [ ("LEFT_MARGIN", VInt 150);
      ("TOP_MARGIN", VInt 30);
      ("BOTTOM_MARGIN", VInt 20);
      ("TRACK_SPACING", VInt 2);
      ("BASE_PIXELS_PER_FRAME", VInt 10);
      ("DEFAULT_TRACK_HEIGHT", VInt 60) ]%string.

(** [THEMES["dark"]] *)
Definition dark : gmap string value :=
  list_to_map
    [ ("timeLabel_bg", VStr "#141414");
      ("timeLabel_text", VStr "#FFFFFF");
      ("ruler_bg", VStr "#1E1E1E");
      ("ruler_tick_major", VStr "#FFFFFF");
      ("ruler_tick_minor", VStr "#808080");
      ("playhead_color", VStr "#FFA500");
      ("track_header_bg", VStr "#282828");
      ("track_header_text", VStr "#FFFFFF");
      ("track_lane_bg1", VStr "#323232");
      ("track_lane_bg2", VStr "#3E3E3E");
      ("track_lane_border", VStr "#505050");
      ("clip_fill", VStr "#6496C8");
      ("clip_fill_selected", VStr "#96C8FF");
      ("clip_border", VStr "#000000");
      ("end_line_color", VStr "#C83232");
      ("background_color", VStr "#111111") ]%string.

(** [THEMES["light"]] *)
Definition light : gmap string value :=
  list_to_map
    [ ("timeLabel_bg", VStr "#F0F0F0");
      ("timeLabel_text", VStr "#000000");
      ("ruler_bg", VStr "#E0E0E0");
      ("ruler_tick_major", VStr "#000000");
      ("ruler_tick_minor", VStr "#808080");
      ("playhead_color", VStr "#FF8C00");
      ("track_header_bg", VStr "#D0D0D0");
      ("track_header_text", VStr "#000000");
      ("track_lane_bg1", VStr "#E8E8E8");
      ("track_lane_bg2", VStr "#F0F0F0");
      ("track_lane_border", VStr "#A0A0A0");
      ("clip_fill", VStr "#90CAF9");
      ("clip_fill_selected", VStr "#64B5F6");
      ("clip_border", VStr "#000000");
      ("end_line_color", VStr "#E53935");
      ("background_color", VStr "#FFFFFF") ]%string.

(** [THEMES]: the presets by name. *)
Definition THEMES : gmap string (gmap string value) :=
  list_to_map [ ("dark", dark); ("light", light) ]%string.

(** The argument of [get_theme]: [None] (or any object that is neither a
    string nor a dict), a string, or a dict. *)
Inductive config : Type :=
| CNone
| CStr (name : string)
| CDict (overrides : gmap string value).

(** [d.update(e)]: the keys of [e] replace those of [d]. *)
Definition update {V} (d e : gmap string V) : gmap string V := e ∪ d.

(** [get_theme(config)] *)
Definition get_theme (c : config) : gmap string value :=
  let theme :=
    match c with
    | CStr name =>
        match THEMES !! name with
        | Some preset => preset
        | None => dark
        end
    | CDict overrides => update dark overrides
    | CNone => dark
    end in
  update DEFAULT_CONSTANTS theme.

End Theme.

(** ** Numbers *)

(** Python's [round(x)] on a float: the nearest integer, a tie going to the
    even neighbour. *)
Definition py_round (q : Q) : Z :=
  let n := Qnum q in
  let d := Zpos (Qden q) in
  let fl := n / d in
  match 2 * (n mod d) ?= d with
  | Lt => fl
  | Gt => fl + 1
  | Eq => if Z.even fl then fl else fl + 1
  end.

(** [x < y] and [x >= y] on numbers, as booleans. *)
Definition Qltb (x y : Q) : bool := negb (Qle_bool y x).
Definition Qgeb (x y : Q) : bool := Qle_bool y x.

(** ** Layout constants and the frame/pixel arithmetic *)

(** The layout constants a [TimelineView] reads from its theme. *)
Record Layout : Type := mkLayout {
  LEFT_MARGIN : Q;
  TOP_MARGIN : Q;
  BOTTOM_MARGIN : Q;
  TRACK_SPACING : Q;
  BASE_PIXELS_PER_FRAME : Q;
  DEFAULT_TRACK_HEIGHT : Q
}.

(** [theme[key]] for a layout constant; [None] stands for the [KeyError] or
    for a value that is not a number. *)
Definition theme_number (theme : gmap string Theme.value) (key : string) : option Q :=
  match theme !! key with
  | Some (Theme.VInt n) => Some (inject_Z n)
  | _ => None
  end.

(** The reads at the top of [TimelineView.__init__]. *)
Definition layout_of_theme (theme : gmap string Theme.value) : option Layout :=
  lm ← theme_number theme "LEFT_MARGIN";
  tm ← theme_number theme "TOP_MARGIN";
  bm ← theme_number theme "BOTTOM_MARGIN";
  ts ← theme_number theme "TRACK_SPACING";
  bpf ← theme_number theme "BASE_PIXELS_PER_FRAME";
  dth ← theme_number theme "DEFAULT_TRACK_HEIGHT";
  Some (mkLayout lm tm bm ts bpf dth).

(** The layout of the default theme. *)
Definition default_layout : Layout :=
  mkLayout (inject_Z 150) (inject_Z 30) (inject_Z 20) (inject_Z 2)
           (inject_Z 10) (inject_Z 60).

(** [LEFT_MARGIN + frame * BASE_PIXELS_PER_FRAME * h_zoom], the expression
    that [updateLayout], [EndLineItem.itemChange] and
    [ClipItem.mouseReleaseEvent] each write out. *)
Definition frameToX (lay : Layout) (frame h_zoom : Q) : Q :=
  (LEFT_MARGIN lay + frame * BASE_PIXELS_PER_FRAME lay * h_zoom)%Q.

(** [(x - LEFT_MARGIN) / (BASE_PIXELS_PER_FRAME * h_zoom)], the expression of
    [updatePlayhead], [updateEndFrame], [EndLineItem.itemChange] and
    [ClipItem.mouseReleaseEvent]; [None] is the [ZeroDivisionError]. *)
Definition xToFrame (lay : Layout) (x h_zoom : Q) : option Q :=
  let scale := (BASE_PIXELS_PER_FRAME lay * h_zoom)%Q in
  if Qeq_bool scale 0 then None
  else Some ((x - LEFT_MARGIN lay) / scale)%Q.

(** ** Data classes and the object store *)

(** [ClipData] *)
Record ClipData : Type := mkClipData {
  title : string;
  start_frame : Z;
  duration_frames : Z
}.

(** [TrackData]; [clips] holds references to [ClipData] objects. *)
Record TrackData : Type := mkTrackData {
  name : string;
  height : Q;
  clips : list nat
}.

(** The objects allocated so far; a reference is an index. *)
Record Store : Type := mkStore {
  clip_objs : list ClipData;
  track_objs : list TrackData
}.

Definition empty_store : Store := mkStore [] [].

(** [ClipData(title, start_frame, duration_frames)]: the new object and its
    reference. *)
Definition new_ClipData (h : Store) (t : string) (start dur : Z) : Store * nat :=
  (mkStore (clip_objs h ++ [mkClipData t start dur]) (track_objs h),
   length (clip_objs h)).

(** [TrackData(name, height=None)] *)
Definition new_TrackData (h : Store) (n : string) (hgt : option Q) : Store * nat :=
  let hg := match hgt with
            | Some x => x
            | None => inject_Z 60 (* DEFAULT_CONSTANTS["DEFAULT_TRACK_HEIGHT"] *)
            end in
  (mkStore (clip_objs h) (track_objs h ++ [mkTrackData n hg []]),
   length (track_objs h)).

(** [TrackData.add_clip]: [track.clips.append(clip)].  [None] when a
    reference names no object, which no Python caller can produce. *)
Definition add_clip (h : Store) (t c : nat) : option Store :=
  tr ← track_objs h !! t;
  _ ← clip_objs h !! c;
  Some (mkStore (clip_objs h)
          (<[t := mkTrackData (name tr) (height tr) (clips tr ++ [c])]> (track_objs h))).

(** [clip.start_frame = v] *)
Definition set_start_frame (h : Store) (c : nat) (v : Z) : Store :=
  match clip_objs h !! c with
  | Some cl =>
      mkStore (<[c := mkClipData (title cl) v (duration_frames cl)]> (clip_objs h))
              (track_objs h)
  | None => h
  end.

(** The objects a list of references names, each with its reference. *)
Definition deref {A} (objs : list A) (refs : list nat) : list (nat * A) :=
  omap (fun r => pair r <$> objs !! r) refs.

(** [track.clips] of the track behind [t], dereferenced. *)
Definition track_clips (h : Store) (t : nat) : list (nat * ClipData) :=
  match track_objs h !! t with
  | Some tr => deref (clip_objs h) (clips tr)
  | None => []
  end.

(** ** The timeline view *)

(** A [ClipItem]: the clip and track it was built for, and its geometry. *)
Record ClipItem : Type := mkClipItem {
  clip_data : nat;
  track_data : nat;
  item_x : Q;
  item_y : Q;
  item_width : Q;
  item_height : Q
}.

(** What [updateLayout] hands to the scene. *)
Record Scene : Type := mkScene {
  scene_height : Q;
  playhead_x : Q;
  end_x : Q;
  clipItems : list ClipItem
}.

(** The fields of [TimelineView]; [timeLabel_frame] is the [playhead_frame]
    of its [TimeLabelItem]. *)
Record TimelineView : Type := mkView {
  layout : Layout;
  h_zoom : Q;
  v_zoom : Q;
  playhead_frame : Q;
  end_frame : Q;
  bottom_frame_offset : Q;
  tracks : list nat;
  timeLabel_frame : Z;
  scene : Scene
}.

(** The store together with the view that looks into it. *)
Record World : Type := mkWorld {
  store : Store;
  view : TimelineView
}.

Definition SNAP_TOLERANCE : Z := 1.

Section Methods.

Variable h : Store.

(** [TimelineView.minimum_end_frame] *)
Definition minimum_end_frame (v : TimelineView) : Z :=
  fold_left
    (fun max_end track =>
       fold_left
         (fun max_end (clip : nat * ClipData) =>
            let end_ := start_frame clip.2 + duration_frames clip.2 in
            if end_ >? max_end then end_ else max_end)
         (track_clips h track) max_end)
    (tracks v) 0.

(** The two loops of [updateLayout] over the tracks: the running [y], and
    the clip items with their geometry. *)
Definition stacked_height (v : TimelineView) : Q :=
  fold_left
    (fun y (track : nat * TrackData) =>
       (y + (height track.2 * v_zoom v + TRACK_SPACING (layout v)))%Q)
    (deref (track_objs h) (tracks v)) (TOP_MARGIN (layout v)).

Definition clip_item (v : TimelineView) (track : nat * TrackData) (current_y : Q)
    (clip : nat * ClipData) : ClipItem :=
  let lay := layout v in
  mkClipItem clip.1 track.1
    (frameToX lay (inject_Z (start_frame clip.2)) (h_zoom v))
    current_y
    ((inject_Z (duration_frames clip.2) * BASE_PIXELS_PER_FRAME lay
      + BASE_PIXELS_PER_FRAME lay) * h_zoom v)%Q
    (height track.2 * v_zoom v)%Q.

Fixpoint layout_items (v : TimelineView) (trs : list (nat * TrackData))
    (current_y : Q) : list ClipItem :=
  match trs with
  | [] => []
  | track :: rest =>
      map (clip_item v track current_y) (track_clips h track.1)
      ++ layout_items v rest
           (current_y + (height track.2 * v_zoom v + TRACK_SPACING (layout v)))%Q
  end.

(** [TimelineView.updateLayout] *)
Definition updateLayout (v : TimelineView) : TimelineView :=
  let lay := layout v in
  let y := stacked_height v in
  let ph_x := frameToX lay (playhead_frame v) (h_zoom v) in
  let min_end := minimum_end_frame v in
  let end_frame' := inject_Z (Z.max (min_end + 24) 100) in
  mkView lay (h_zoom v) (v_zoom v) (playhead_frame v) end_frame'
    (bottom_frame_offset v) (tracks v) (timeLabel_frame v)
    (mkScene (y + bottom_frame_offset v)%Q ph_x
       (frameToX lay end_frame' (h_zoom v))
       (layout_items v (deref (track_objs h) (tracks v)) (TOP_MARGIN lay))).

(** Field assignments on the view. *)
Definition with_tracks (v : TimelineView) (ts : list nat) : TimelineView :=
  mkView (layout v) (h_zoom v) (v_zoom v) (playhead_frame v) (end_frame v)
    (bottom_frame_offset v) ts (timeLabel_frame v) (scene v).

Definition with_h_zoom (v : TimelineView) (z : Q) : TimelineView :=
  mkView (layout v) z (v_zoom v) (playhead_frame v) (end_frame v)
    (bottom_frame_offset v) (tracks v) (timeLabel_frame v) (scene v).

Definition with_v_zoom (v : TimelineView) (z : Q) : TimelineView :=
  mkView (layout v) (h_zoom v) z (playhead_frame v) (end_frame v)
    (bottom_frame_offset v) (tracks v) (timeLabel_frame v) (scene v).

Definition with_playhead_frame (v : TimelineView) (f : Q) : TimelineView :=
  mkView (layout v) (h_zoom v) (v_zoom v) f (end_frame v)
    (bottom_frame_offset v) (tracks v) (timeLabel_frame v) (scene v).

Definition with_end_frame (v : TimelineView) (f : Q) : TimelineView :=
  mkView (layout v) (h_zoom v) (v_zoom v) (playhead_frame v) f
    (bottom_frame_offset v) (tracks v) (timeLabel_frame v) (scene v).

(** [TimeLabelItem.updateTime]: [self.playhead_frame = int(round(frame))] *)
Definition updateTime (v : TimelineView) (frame : Q) : TimelineView :=
  mkView (layout v) (h_zoom v) (v_zoom v) (playhead_frame v) (end_frame v)
    (bottom_frame_offset v) (tracks v) (py_round frame) (scene v).

(** [TimelineView.addTrack] *)
Definition addTrack (v : TimelineView) (track : nat) : TimelineView :=
  updateLayout (with_tracks v (tracks v ++ [track])).

(** [TimelineView.setHZoom] and [setVZoom], on a slider value *)
Definition setHZoom (v : TimelineView) (value : Z) : TimelineView :=
  updateLayout (with_h_zoom v ((1#2) + (inject_Z value / 100) * (7#2))%Q).

Definition setVZoom (v : TimelineView) (value : Z) : TimelineView :=
  updateLayout (with_v_zoom v ((1#2) + (inject_Z value / 100) * (3#2))%Q).

(** [TimelineView.updateFromPlayhead] *)
Definition updateFromPlayhead (v : TimelineView) (new_frame : Q) : TimelineView :=
  let v1 := with_playhead_frame v (inject_Z (py_round new_frame)) in
  updateLayout (updateTime v1 (playhead_frame v1)).

(** [TimelineView.setPlayheadFrame] *)
Definition setPlayheadFrame (v : TimelineView) (frame : Q) : TimelineView :=
  let v1 := with_playhead_frame v frame in
  updateLayout (updateTime v1 (playhead_frame v1)).

(** The assignment of [setEndFrame], before its call of [updateLayout]. *)
Definition setEndFrame_store (v : TimelineView) (frame : Q) : TimelineView :=
  let min_end := inject_Z (minimum_end_frame v) in
  let frame := if Qltb frame min_end then min_end else frame in
  with_end_frame v frame.

(** [TimelineView.setEndFrame] *)
Definition setEndFrame (v : TimelineView) (frame : Q) : TimelineView :=
  updateLayout (setEndFrame_store v frame).

(** [TimelineView.playbackStep] *)
Definition playbackStep (v : TimelineView) : TimelineView :=
  let v1 := with_playhead_frame v (playhead_frame v + 1)%Q in
  let v2 := if Qgeb (playhead_frame v1) (end_frame v1)
            then with_playhead_frame v1 0%Q else v1 in
  updateFromPlayhead v2 (playhead_frame v2).

End Methods.

(** ** Drag handlers *)

(** [PlayheadTriangleItem.updatePlayhead] and
    [PlayheadLineItem.updatePlayhead], for the item at pixel [x] *)
Definition updatePlayhead (h : Store) (v : TimelineView) (x : Q) : option TimelineView :=
  new_frame ← xToFrame (layout v) x (h_zoom v);
  Some (setPlayheadFrame h v new_frame).

(** [EndLineItem.itemChange] on a position change to [x]: the accepted
    horizontal position.  (The vertical pinning of the [itemChange] methods
    touches no frame and is left out.) *)
Definition EndLine_itemChange (h : Store) (v : TimelineView) (x : Q) : option Q :=
  new_frame ← xToFrame (layout v) x (h_zoom v);
  let min_end := inject_Z (minimum_end_frame h v) in
  Some (if Qltb new_frame min_end
        then frameToX (layout v) min_end (h_zoom v)
        else x).

(** [EndLineItem.updateEndFrame], for the item at pixel [x] *)
Definition updateEndFrame (h : Store) (v : TimelineView) (x : Q) : option TimelineView :=
  new_frame ← xToFrame (layout v) x (h_zoom v);
  Some (setEndFrame h v new_frame).

(** ** Releasing a dragged clip *)

(** The first loop of [ClipItem.mouseReleaseEvent]: what it appends to
    [candidate_options], in order.  [self] is the reference of the dragged
    clip ([other is self.clip_data]). *)
Fixpoint snap_options (self : nat) (original_candidate duration : Z)
    (others : list (nat * ClipData)) : list Z :=
  match others with
  | [] => []
  | (r, other) :: rest =>
      if Nat.eqb r self then snap_options self original_candidate duration rest
      else
        let other_end := start_frame other + duration_frames other in
        (if Z.abs (original_candidate - other_end) <=? SNAP_TOLERANCE
         then [other_end] else [])
        ++ (if Z.abs (original_candidate + duration - start_frame other)
               <=? SNAP_TOLERANCE
            then [start_frame other - duration] else [])
        ++ snap_options self original_candidate duration rest
  end.

(** Python's [min(xs, key=key)]: the first element with the least key;
    [None] is the [ValueError] on an empty list. *)
Definition py_min_by (key : Z -> Z) (xs : list Z) : option Z :=
  match xs with
  | [] => None
  | x :: rest =>
      Some (fold_left (fun best c => if key c <? key best then c else best) rest x)
  end.

(** Whether a clip of [duration] frames placed at [candidate] meets
    [other]. *)
Definition overlaps (candidate duration : Z) (other : ClipData) : bool :=
  (candidate <? start_frame other + duration_frames other)
  && (candidate + duration >? start_frame other).

(** The second loop: [candidate] after the overlap check. *)
Fixpoint overlap_check (self : nat) (candidate original_candidate duration : Z)
    (others : list (nat * ClipData)) : Z :=
  match others with
  | [] => candidate
  | (r, other) :: rest =>
      if Nat.eqb r self
      then overlap_check self candidate original_candidate duration rest
      else if overlaps candidate duration other then original_candidate
      else overlap_check self candidate original_candidate duration rest
  end.

(** [original_candidate]: the rounded frame under the released item. *)
Definition raw_frame (lay : Layout) (hz x : Q) : option Z :=
  py_round <$> xToFrame lay x hz.

(** The candidate [min] picks among [candidate_options]. *)
Definition closest_candidate (self : nat) (original_candidate duration : Z)
    (others : list (nat * ClipData)) : option Z :=
  py_min_by (fun c => Z.abs (c - original_candidate))
    (original_candidate :: snap_options self original_candidate duration others).

(** [candidate] as it reaches the commit: snapped, then overlap-checked. *)
Definition chosen_frame (self : nat) (original_candidate duration : Z)
    (others : list (nat * ClipData)) : option Z :=
  candidate ← closest_candidate self original_candidate duration others;
  Some (overlap_check self candidate original_candidate duration others).

(** The frame [mouseReleaseEvent] assigns to [clip_data.start_frame], for
    the item [it] released at pixel [x]. *)
Definition committed_start (h : Store) (v : TimelineView) (it : ClipItem) (x : Q)
    : option Z :=
  original_candidate ← raw_frame (layout v) (h_zoom v) x;
  me ← clip_objs h !! clip_data it;
  candidate ← chosen_frame (clip_data it) original_candidate (duration_frames me)
                (track_clips h (track_data it));
  Some (Z.max 0 candidate).

(** [ClipItem.setPos] on the [i]-th item of the scene. *)
Definition move_item (v : TimelineView) (i : nat) (x : Q) : TimelineView :=
  let sc := scene v in
  let items :=
    match clipItems sc !! i with
    | Some it =>
        <[i := mkClipItem (clip_data it) (track_data it) x (item_y it)
                 (item_width it) (item_height it)]> (clipItems sc)
    | None => clipItems sc
    end in
  mkView (layout v) (h_zoom v) (v_zoom v) (playhead_frame v) (end_frame v)
    (bottom_frame_offset v) (tracks v) (timeLabel_frame v)
    (mkScene (scene_height sc) (playhead_x sc) (end_x sc) items).

(** [ClipItem.mouseReleaseEvent] of the [i]-th clip item, released at pixel
    [x].  [None]: there is no such item, or the division raised. *)
Definition mouseReleaseEvent (w : World) (i : nat) (x : Q) : option World :=
  let v := view w in
  it ← clipItems (scene v) !! i;
  start ← committed_start (store w) v it x;
  let new_x_pos := frameToX (layout v) (inject_Z start) (h_zoom v) in
  Some (mkWorld (set_start_frame (store w) (clip_data it) start)
                (move_item v i new_x_pos)).

(** The resolver that only rounds and clamps, to compare with
    [committed_start]. *)
Definition trivial_resolver (lay : Layout) (hz x : Q) : option Z :=
  Z.max 0 <$> raw_frame lay hz x.

(** ** Construction and the operations of a session *)

(** [TimelineView.__init__] on a theme *)
Definition TimelineView_init (theme : gmap string Theme.value) : option TimelineView :=
  lay ← layout_of_theme theme;
  Some (updateLayout empty_store
          (mkView lay 1%Q 1%Q 0%Q 0%Q (BOTTOM_MARGIN lay) [] 0
             (mkScene 0%Q 0%Q 0%Q []))).

(** [TimelineWidget.__init__]: the theme, the view, then [setHZoom(1)] *)
Definition TimelineWidget_init (c : Theme.config) : option World :=
  v ← TimelineView_init (Theme.get_theme c);
  Some (mkWorld empty_store (setHZoom empty_store v 1)).

(** What a program or a user can do to a running widget. *)
Inductive op : Type :=
| NewClip (title : string) (start_frame duration_frames : Z)
| NewTrack (name : string) (height : option Q)
| TrackAddClip (track clip : nat)
| AddTrack (track : nat)
| SetHZoom (value : Z)
| SetVZoom (value : Z)
| SetPlayheadFrame (frame : Q)
| SetEndFrame (frame : Q)
| PlaybackStep
| Resize
| PlayheadDrag (x : Q)
| EndLineDrag (x : Q)
| ClipRelease (i : nat) (x : Q).

Definition step (w : World) (o : op) : option World :=
  let h := store w in
  let v := view w in
  match o with
  | NewClip t s d => Some (mkWorld (new_ClipData h t s d).1 v)
  | NewTrack n hg => Some (mkWorld (new_TrackData h n hg).1 v)
  | TrackAddClip t c => h' ← add_clip h t c; Some (mkWorld h' v)
  | AddTrack t => _ ← track_objs h !! t; Some (mkWorld h (addTrack h v t))
  | SetHZoom value => Some (mkWorld h (setHZoom h v value))
  | SetVZoom value => Some (mkWorld h (setVZoom h v value))
  | SetPlayheadFrame f => Some (mkWorld h (setPlayheadFrame h v f))
  | SetEndFrame f => Some (mkWorld h (setEndFrame h v f))
  | PlaybackStep => Some (mkWorld h (playbackStep h v))
  | Resize => Some (mkWorld h (updateLayout h v))
  | PlayheadDrag x => v' ← updatePlayhead h v x; Some (mkWorld h v')
  | EndLineDrag x =>
      x' ← EndLine_itemChange h v x;
      v' ← updateEndFrame h v x';
      Some (mkWorld h v')
  | ClipRelease i x => mouseReleaseEvent w i x
  end.

(** A session: the operations in order, stopping at the first that raises. *)
Fixpoint run (w : World) (ops : list op) : option World :=
  match ops with
  | [] => Some w
  | o :: rest => w' ← step w o; run w' rest
  end.

(** The playhead after each of [n] successive ticks. *)
Fixpoint playback_trace (h : Store) (n : nat) (v : TimelineView) : list Q :=
  match n with
  | O => []
  | S n' =>
      let v' := playbackStep h v in
      playhead_frame v' :: playback_trace h n' v'
  end.

(** The view after [n] successive ticks. *)
Fixpoint ticks (h : Store) (n : nat) (v : TimelineView) : TimelineView :=
  match n with
  | O => v
  | S n' => ticks h n' (playbackStep h v)
  end.

(** Whether some clip other than [self] meets a clip of [duration] frames
    placed at [candidate]. *)
Definition overlaps_any (self : nat) (candidate duration : Z)
    (others : list (nat * ClipData)) : bool :=
  existsb (fun o : nat * ClipData =>
             negb (Nat.eqb o.1 self) && overlaps candidate duration o.2) others.

(** Every clip object starts at a non-negative frame. *)
Definition clips_nonneg (h : Store) : Prop :=
  Forall (fun c => 0 <= start_frame c) (clip_objs h).

(** An operation that, if it creates a clip, gives it a non-negative start. *)
Definition creates_nonneg (o : op) : Prop :=
  match o with
  | NewClip _ s _ => 0 <= s
  | _ => True
  end.

(** The operations whose method ends in [updateLayout]. *)
Definition triggers_layout (o : op) : bool :=
  match o with
  | AddTrack _ | SetHZoom _ | SetVZoom _ | SetPlayheadFrame _ | SetEndFrame _
  | PlaybackStep | Resize | PlayheadDrag _ | EndLineDrag _ => true
  | NewClip _ _ _ | NewTrack _ _ | TrackAddClip _ _ | ClipRelease _ _ => false
  end.

(** ** Sample sessions *)

(** A widget on the default theme. *)
Definition widget0 : option World := TimelineWidget_init Theme.CNone.

(** One track holding one clip over frames [0, 200). *)
Definition single_clip_ops : list op :=
  [ NewTrack "Video 1" None; NewClip "A" 0 200; TrackAddClip 0 0; AddTrack 0 ]%string.

(** Clip A over [50, 100) and clip B of 20 frames in one track. *)
Definition snap_ops : list op :=
  [ NewTrack "Video 1" None; NewClip "A" 50 50; NewClip "B" 300 20;
    TrackAddClip 0 0; TrackAddClip 0 1; AddTrack 0 ]%string.

(** Clips A over [0, 50), B over [50, 100) and C of 10 frames in one track. *)
Definition rejection_ops : list op :=
  [ NewTrack "Video 1" None; NewClip "A" 0 50; NewClip "B" 50 50;
    NewClip "C" 200 10; TrackAddClip 0 0; TrackAddClip 0 1; TrackAddClip 0 2;
    AddTrack 0 ]%string.

(** The pixel under frame [f] at the zoom a new widget starts with. *)
Definition pixel_of_frame (f : Z) : Q :=
  frameToX default_layout (inject_Z f) (107 # 200).

(** ** Timecodes *)

(** Python's [f"{n:02}"] on an integer: decimal, padded with a zero to two
    characters (the sign of a negative number counts as one). *)
Definition format_02 (n : Z) : string :=
  if (0 <=? n) && (n <? 10) then "0" +:+ pretty n else pretty n.

(** The four numbers [frames_to_timecode(frames, fps)] prints: hours,
    minutes, seconds and frames.  [None] is the [ZeroDivisionError] of
    [fps = 0]. *)
Definition timecode_fields (frames : Q) (fps : Z) : option (Z * Z * Z * Z) :=
  if fps =? 0 then None
  else
    let frames := py_round frames in
    let seconds := frames / fps in
    let frames_rem := frames mod fps in
    let hours := seconds / 3600 in
    let minutes := (seconds mod 3600) / 60 in
    let seconds_rem := seconds mod 60 in
    Some (hours, minutes, seconds_rem, frames_rem).

(** [frames_to_timecode(frames, fps)] *)
Definition frames_to_timecode (frames : Q) (fps : Z) : option string :=
  '(hours, minutes, seconds_rem, frames_rem) ← timecode_fields frames fps;
  Some (format_02 hours +:+ ":" +:+ format_02 minutes +:+ ":"
        +:+ format_02 seconds_rem +:+ ":" +:+ format_02 frames_rem).

(** ** Vocabulary of the further properties *)

(** The clips of the tracks of the view, in the order
    [minimum_end_frame] visits them. *)
Definition view_clips (h : Store) (v : TimelineView) : list (nat * ClipData) :=
  concat (map (track_clips h) (tracks v)).

(** [clip.start_frame + clip.duration_frames] *)
Definition clip_end (c : ClipData) : Z := start_frame c + duration_frames c.

(** The track and clip references of the clip items, in scene order. *)
Definition item_refs (sc : Scene) : list (nat * nat) :=
  map (fun it => (track_data it, clip_data it)) (clipItems sc).

(** A zoom operation with a value the sliders of [TimelineWidget] can send
    ([setRange(1, 100)]). *)
Definition slider_range (o : op) : Prop :=
  match o with
  | SetHZoom value | SetVZoom value => 1 <= value <= 100
  | _ => True
  end.

(** A world whose drags cannot divide by zero and whose clip items all
    name a clip object. *)
Definition drivable (w : World) : Prop :=
  (0 < BASE_PIXELS_PER_FRAME (layout (view w)))%Q
  /\ (0 < h_zoom (view w))%Q
  /\ Forall (fun it => is_Some (clip_objs (store w) !! clip_data it))
       (clipItems (scene (view w))).

(** * Properties *)

(** ** Theme merging *)

Lemma update_lookup {V} (d e : gmap string V) (k : string) :
  Theme.update d e !! k = match e !! k with Some v => Some v | None => d !! k end.
Proof.
  unfold Theme.update. rewrite lookup_union.
  destruct (e !! k), (d !! k); reflexivity.
Qed.

(** C9: the merge of [get_theme] gives an override key its override value,
    any other key of the dark preset the preset's value, and the remaining
    keys the constant default (a named preset likewise comes before the
    defaults); for the override [{clip_fill: "#FF0000"}] that is ["#FF0000"]
    at [clip_fill], the dark preset's value at each of its other keys and
    the default at the layout constants. *)
Theorem get_theme_precedence :
  (forall (overrides : gmap string Theme.value) (k : string),
      Theme.get_theme (Theme.CDict overrides) !! k =
      match overrides !! k with
      | Some v => Some v
      | None => match Theme.dark !! k with
                | Some v => Some v
                | None => Theme.DEFAULT_CONSTANTS !! k
                end
      end)
  /\ (forall k : string,
        Theme.get_theme
          (Theme.CDict {[ "clip_fill"%string := Theme.VStr "#FF0000" ]}) !! k =
        if decide (k = "clip_fill"%string) then Some (Theme.VStr "#FF0000")
        else match Theme.dark !! k with
             | Some v => Some v
             | None => Theme.DEFAULT_CONSTANTS !! k
             end)
  /\ (forall name k : string,
        Theme.get_theme (Theme.CStr name) !! k =
        match default Theme.dark (Theme.THEMES !! name) !! k with
        | Some v => Some v
        | None => Theme.DEFAULT_CONSTANTS !! k
        end)
  /\ Theme.dark !! "clip_fill"%string = Some (Theme.VStr "#6496C8")
  /\ layout_of_theme
       (Theme.get_theme
          (Theme.CDict {[ "clip_fill"%string := Theme.VStr "#FF0000" ]}))
     = Some default_layout.
Proof.
  assert (Hgen : forall (overrides : gmap string Theme.value) (k : string),
      Theme.get_theme (Theme.CDict overrides) !! k =
      match overrides !! k with
      | Some v => Some v
      | None => match Theme.dark !! k with
                | Some v => Some v
                | None => Theme.DEFAULT_CONSTANTS !! k
                end
      end).
  { intros overrides k. unfold Theme.get_theme.
    rewrite !update_lookup. destruct (overrides !! k); reflexivity. }
  split; [exact Hgen|]. split; [|split; [|split]].
  - intros k. rewrite Hgen. case_decide as Hk.
    + subst k. rewrite lookup_singleton_eq. reflexivity.
    + rewrite lookup_singleton_ne by congruence. reflexivity.
  - intros name k. unfold Theme.get_theme. rewrite update_lookup.
    destruct (Theme.THEMES !! name); reflexivity.
  - vm_compute. reflexivity.
  - vm_compute. reflexivity.
Qed.

(** ** Frames and pixels *)

Lemma xToFrame_defined (lay : Layout) (x z : Q) :
  ~ (BASE_PIXELS_PER_FRAME lay * z == 0)%Q ->
  xToFrame lay x z
  = Some ((x - LEFT_MARGIN lay) / (BASE_PIXELS_PER_FRAME lay * z))%Q.
Proof.
  intros Hnz. unfold xToFrame.
  destruct (Qeq_bool (BASE_PIXELS_PER_FRAME lay * z) 0) eqn:E; [|reflexivity].
  apply Qeq_bool_iff in E. contradiction.
Qed.

Lemma scale_nonzero (b z : Q) : ~ (b == 0)%Q -> (0 < z)%Q -> ~ (b * z == 0)%Q.
Proof.
  intros Hb Hz Hbz. apply Qmult_integral in Hbz. destruct Hbz as [H|H].
  - exact (Hb H).
  - rewrite H in Hz. exact (Qlt_irrefl 0 Hz).
Qed.

Lemma frame_roundtrip_at (lay : Layout) (f z : Q) :
  ~ (BASE_PIXELS_PER_FRAME lay == 0)%Q -> (0 < z)%Q ->
  exists g, xToFrame lay (frameToX lay f z) z = Some g /\ (g == f)%Q.
Proof.
  intros Hb Hz. pose proof (scale_nonzero _ _ Hb Hz) as Hs.
  eexists. split; [apply xToFrame_defined; exact Hs|].
  unfold frameToX. field. split.
  - intros H. rewrite H in Hz. exact (Qlt_irrefl 0 Hz).
  - exact Hb.
Qed.

(** C7: for a frame [f >= 0] and a zoom [z > 0], the pixel of [f] converts
    back to [f], over exact arithmetic: on the default layout, and on every
    layout whose [BASE_PIXELS_PER_FRAME] is not zero. *)
Theorem frame_pixel_roundtrip (f z : Q) :
  (0 <= f)%Q -> (0 < z)%Q ->
  (exists g, xToFrame default_layout (frameToX default_layout f z) z = Some g
             /\ (g == f)%Q)
  /\ (forall lay : Layout,
        ~ (BASE_PIXELS_PER_FRAME lay == 0)%Q ->
        exists g, xToFrame lay (frameToX lay f z) z = Some g /\ (g == f)%Q).
Proof.
  intros _ Hz. split.
  - apply frame_roundtrip_at; [|exact Hz]. discriminate.
  - intros lay Hb. apply frame_roundtrip_at; assumption.
Qed.

Lemma frame_pixel_roundtrip_witness :
  exists g, xToFrame default_layout (frameToX default_layout 24 (107 # 200)) (107 # 200)
            = Some g /\ (g == 24)%Q.
Proof.
  refine (proj1 (frame_pixel_roundtrip 24 (107 # 200) _ _)).
  - unfold Qle; simpl; lia.
  - reflexivity.
Defined.

(** ** Rounding *)

Lemma py_round_inject_Z (n : Z) : py_round (inject_Z n) = n.
Proof.
  unfold py_round. simpl. rewrite Z.mod_1_r, Z.div_1_r. reflexivity.
Qed.

(** Ties go to the even neighbour, on both sides of zero. *)
Example py_round_ties :
  py_round (5 # 2) = 2 /\ py_round (7 # 2) = 4 /\ py_round (-5 # 2) = -2
  /\ py_round (-187 # 20) = -9 /\ py_round (188 # 20) = 9.
Proof. repeat split. Qed.

Lemma inject_Z_plus_1 (p : Z) : (inject_Z p + 1)%Q = inject_Z (p + 1).
Proof.
  unfold Qplus, inject_Z. simpl. rewrite Z.mul_1_r. reflexivity.
Qed.

(** ** The playhead setter *)

(** C5, as the code has it: [setPlayheadFrame(frame)] stores [frame] itself,
    neither rounded nor clamped; [round(frame)] goes to the time label only.
    The stored value is [round(frame)] when [frame] is an integer. *)
Theorem setPlayheadFrame_stores_argument :
  (forall (h : Store) (v : TimelineView) (frame : Q),
      playhead_frame (setPlayheadFrame h v frame) = frame
      /\ timeLabel_frame (setPlayheadFrame h v frame) = py_round frame)
  /\ (forall (h : Store) (v : TimelineView) (n : Z),
        playhead_frame (setPlayheadFrame h v (inject_Z n))
        = inject_Z (py_round (inject_Z n))).
Proof.
  split.
  - intros h v frame. split; reflexivity.
  - intros h v n. rewrite py_round_inject_Z. reflexivity.
Qed.

(** C5 fails at [frame = 2.5]: the stored playhead is [2.5], not
    [round(2.5) = 2]. *)
Lemma setPlayheadFrame_not_rounded :
  exists (h : Store) (v : TimelineView) (frame : Q),
    TimelineView_init (Theme.get_theme Theme.CNone) = Some v
    /\ playhead_frame (setPlayheadFrame h v frame) = (5 # 2)%Q
    /\ py_round frame = 2
    /\ ~ (playhead_frame (setPlayheadFrame h v frame) == inject_Z (py_round frame))%Q.
Proof.
  exists empty_store.
  eexists. exists (5 # 2)%Q.
  split; [vm_compute; reflexivity|].
  split; [reflexivity|]. split; [reflexivity|].
  intros H. vm_compute in H. discriminate H.
Qed.

(** ** The end frame and the layout pass *)

Lemma updateLayout_tracks (h : Store) (v : TimelineView) :
  tracks (updateLayout h v) = tracks v.
Proof. reflexivity. Qed.

Lemma minimum_end_frame_tracks (h : Store) (v v' : TimelineView) :
  tracks v' = tracks v -> minimum_end_frame h v' = minimum_end_frame h v.
Proof. unfold minimum_end_frame. intros ->. reflexivity. Qed.

Lemma updateLayout_end_frame (h : Store) (v : TimelineView) :
  end_frame (updateLayout h v)
  = inject_Z (Z.max (minimum_end_frame h (updateLayout h v) + 24) 100).
Proof. reflexivity. Qed.

Lemma playbackStep_tracks (h : Store) (v : TimelineView) :
  tracks (playbackStep h v) = tracks v.
Proof.
  unfold playbackStep. cbn [playhead_frame end_frame with_playhead_frame].
  destruct (Qgeb _ _); reflexivity.
Qed.

(** Every operation that triggers a layout leaves a freshly laid out view. *)
Lemma step_laid_out (w w' : World) (o : op) :
  triggers_layout o = true -> step w o = Some w' ->
  exists v1, view w' = updateLayout (store w') v1.
Proof.
  intros Ht Hs. destruct o; try discriminate Ht; cbn in Hs.
  - destruct (track_objs (store w) !! track); [|discriminate Hs].
    cbn in Hs. injection Hs as <-. eexists. reflexivity.
  - injection Hs as <-. eexists. reflexivity.
  - injection Hs as <-. eexists. reflexivity.
  - injection Hs as <-. eexists. reflexivity.
  - injection Hs as <-. eexists. reflexivity.
  - injection Hs as <-. eexists. reflexivity.
  - injection Hs as <-. eexists. reflexivity.
  - unfold updatePlayhead in Hs.
    destruct (xToFrame _ _ _); [|discriminate Hs].
    cbn in Hs. injection Hs as <-. eexists. reflexivity.
  - destruct (EndLine_itemChange _ _ _); [|discriminate Hs].
    cbn in Hs. unfold updateEndFrame in Hs.
    destruct (xToFrame _ _ _); [|discriminate Hs].
    cbn in Hs. injection Hs as <-. eexists. reflexivity.
Qed.

(** C10: after a layout pass, and so after every operation that triggers
    one, the stored end frame is [max(minimum_end_frame() + 24, 100)],
    whatever [setEndFrame] stored before; with no tracks it is 100. *)
Theorem end_frame_after_layout :
  (forall (h : Store) (v : TimelineView),
      end_frame (updateLayout h v)
      = inject_Z (Z.max (minimum_end_frame h (updateLayout h v) + 24) 100))
  /\ (forall (w w' : World) (o : op),
        triggers_layout o = true -> step w o = Some w' ->
        end_frame (view w')
        = inject_Z (Z.max (minimum_end_frame (store w') (view w') + 24) 100))
  /\ (forall (h : Store) (v : TimelineView) (frame : Q),
        end_frame (setEndFrame h v frame)
        = inject_Z (Z.max (minimum_end_frame h v + 24) 100))
  /\ (forall (w w' : World) (o : op),
        triggers_layout o = true -> step w o = Some w' ->
        tracks (view w') = [] -> end_frame (view w') = inject_Z 100).
Proof.
  split; [exact updateLayout_end_frame|].
  split; [|split].
  - intros w w' o Ht Hs.
    destruct (step_laid_out w w' o Ht Hs) as [v1 Hv]. rewrite Hv.
    apply updateLayout_end_frame.
  - intros h v frame. reflexivity.
  - intros w w' o Ht Hs Hnil.
    destruct (step_laid_out w w' o Ht Hs) as [v1 Hv].
    rewrite Hv in Hnil |- *. rewrite updateLayout_end_frame.
    unfold minimum_end_frame. rewrite Hnil. reflexivity.
Qed.

Lemma end_frame_after_layout_witness :
  exists w w' : World,
    widget0 = Some w /\ step w (SetEndFrame 500) = Some w'
    /\ end_frame (view w')
       = inject_Z (Z.max (minimum_end_frame (store w') (view w') + 24) 100)
    /\ end_frame (view w') = inject_Z 100.
Proof.
  eexists. eexists.
  split; [vm_compute; reflexivity|].
  split; [reflexivity|].
  split.
  - refine (proj1 (proj2 end_frame_after_layout) _ _ (SetEndFrame 500) _ _);
      reflexivity.
  - refine (proj2 (proj2 (proj2 end_frame_after_layout)) _ _ (SetEndFrame 500) _ _ _);
      reflexivity.
Defined.

(** C1, on the code: with a single clip ending at frame 200,
    [setEndFrame(150)] assigns the clamped 200 and its closing
    [updateLayout] replaces it by 224. *)
Theorem setEndFrame_single_clip :
  exists w w' : World,
    (w0 ← widget0; run w0 single_clip_ops) = Some w
    /\ minimum_end_frame (store w) (view w) = 200
    /\ end_frame (setEndFrame_store (store w) (view w) 150) = inject_Z 200
    /\ step w (SetEndFrame 150) = Some w'
    /\ end_frame (view w') = inject_Z 224.
Proof.
  eexists. eexists.
  split; [vm_compute; reflexivity|].
  split; [vm_compute; reflexivity|].
  split; [vm_compute; reflexivity|].
  split; [reflexivity|].
  vm_compute. reflexivity.
Qed.

(** ** Playback *)

Lemma Qle_bool_inject_Z (a b : Z) : Qle_bool (inject_Z a) (inject_Z b) = (a <=? b).
Proof. unfold Qle_bool. simpl. rewrite !Z.mul_1_r. reflexivity. Qed.

Lemma playbackStep_playhead (h : Store) (v : TimelineView) :
  playhead_frame (playbackStep h v)
  = inject_Z (py_round (if Qle_bool (end_frame v) (playhead_frame v + 1)
                        then 0 else playhead_frame v + 1)%Q).
Proof.
  unfold playbackStep. cbn [playhead_frame end_frame with_playhead_frame].
  unfold Qgeb. destruct (Qle_bool (end_frame v) (playhead_frame v + 1)); reflexivity.
Qed.

Lemma playbackStep_integral (h : Store) (v : TimelineView) (p : Z) :
  playhead_frame v = inject_Z p ->
  playhead_frame (playbackStep h v)
  = inject_Z (if Qle_bool (end_frame v) (inject_Z (p + 1)) then 0 else p + 1).
Proof.
  intros Hp. unfold playbackStep.
  cbn [playhead_frame end_frame with_playhead_frame].
  rewrite Hp, inject_Z_plus_1. unfold Qgeb.
  destruct (Qle_bool (end_frame v) (inject_Z (p + 1)));
    unfold updateFromPlayhead; cbn [playhead_frame with_playhead_frame updateTime updateLayout].
  - reflexivity.
  - rewrite py_round_inject_Z. reflexivity.
Qed.

Lemma playbackStep_end_frame (h : Store) (v : TimelineView) :
  end_frame (playbackStep h v) = end_frame (updateLayout h v).
Proof.
  unfold playbackStep. cbn [playhead_frame end_frame with_playhead_frame].
  destruct (Qgeb _ _); reflexivity.
Qed.

Lemma updateLayout_end_frame_tracks (h : Store) (v v' : TimelineView) :
  tracks v' = tracks v ->
  end_frame (updateLayout h v') = end_frame (updateLayout h v).
Proof.
  intros Ht. rewrite !updateLayout_end_frame.
  rewrite (minimum_end_frame_tracks h (updateLayout h v) (updateLayout h v')); [reflexivity|].
  rewrite !updateLayout_tracks. exact Ht.
Qed.

Lemma ticks_add (h : Store) (n m : nat) (v : TimelineView) :
  ticks h (n + m) v = ticks h m (ticks h n v).
Proof. revert v. induction n as [|n IH]; intros v; [reflexivity|]. apply IH. Qed.

Lemma playback_trace_add (h : Store) (n m : nat) (v : TimelineView) :
  playback_trace h (n + m) v
  = playback_trace h n v ++ playback_trace h m (ticks h n v).
Proof.
  revert v. induction n as [|n IH]; intros v; [reflexivity|].
  cbn [Nat.add playback_trace ticks]. rewrite IH. reflexivity.
Qed.

(** Below the end frame the playhead just counts up. *)
Lemma playback_counts (h : Store) (e : Z) (n : nat) :
  forall (p : Z) (v : TimelineView),
    playhead_frame v = inject_Z p ->
    end_frame v = inject_Z e ->
    end_frame (updateLayout h v) = inject_Z e ->
    p + Z.of_nat n < e ->
    playback_trace h n v = map inject_Z (seqZ (p + 1) (Z.of_nat n))
    /\ playhead_frame (ticks h n v) = inject_Z (p + Z.of_nat n)
    /\ end_frame (ticks h n v) = inject_Z e
    /\ end_frame (updateLayout h (ticks h n v)) = inject_Z e.
Proof.
  induction n as [|n IH]; intros p v Hp He Hl Hlt.
  - cbn [playback_trace ticks]. rewrite Z.add_0_r. auto.
  - assert (Hp' : playhead_frame (playbackStep h v) = inject_Z (p + 1)).
    { rewrite (playbackStep_integral h v p Hp), He, Qle_bool_inject_Z.
      destruct (Z.leb_spec e (p + 1)); [lia|reflexivity]. }
    assert (He' : end_frame (playbackStep h v) = inject_Z e).
    { rewrite playbackStep_end_frame. exact Hl. }
    assert (Hl' : end_frame (updateLayout h (playbackStep h v)) = inject_Z e).
    { rewrite (updateLayout_end_frame_tracks h v); [exact Hl|].
      apply playbackStep_tracks. }
    destruct (IH (p + 1) (playbackStep h v) Hp' He' Hl') as (Ht & Hq & Hr & Hs);
      [lia|].
    cbn [playback_trace ticks]. rewrite Ht, Hp', Hq, Hr, Hs.
    rewrite (seqZ_cons (p + 1)) by lia.
    replace (Z.pred (Z.of_nat (S n))) with (Z.of_nat n) by lia.
    replace (Z.succ (p + 1)) with (p + 1 + 1) by lia.
    replace (p + 1 + Z.of_nat n) with (p + Z.of_nat (S n)) by lia.
    auto.
Qed.

(** C6, as the code has it: a tick adds 1 to the playhead, wraps the sum to
    0 when it reaches the end frame and stores the result through
    [updateFromPlayhead], which rounds it: on an integral playhead that is
    exactly one frame more, or 0 at the wrap; with the end frame held at
    100, 100 ticks from playhead 0 pass through 1, ..., 99 and end on 0
    again. *)
Theorem playback_wraps (h : Store) (v : TimelineView) :
  playhead_frame (playbackStep h v)
  = inject_Z (py_round (if Qle_bool (end_frame v) (playhead_frame v + 1)
                        then 0 else playhead_frame v + 1)%Q)
  /\ (forall p : Z,
      playhead_frame v = inject_Z p ->
      playhead_frame (playbackStep h v)
      = inject_Z (if Qle_bool (end_frame v) (inject_Z (p + 1)) then 0 else p + 1))
  /\ (playhead_frame v = inject_Z 0 ->
      end_frame v = inject_Z 100 ->
      end_frame (updateLayout h v) = inject_Z 100 ->
      playback_trace h 100 v = map inject_Z (seqZ 1 99 ++ [0])
      /\ playhead_frame (ticks h 100 v) = inject_Z 0
      /\ end_frame (ticks h 100 v) = inject_Z 100).
Proof.
  split; [apply playbackStep_playhead|].
  split; [intros p; apply playbackStep_integral|].
  intros Hp He Hl.
  destruct (playback_counts h 100 99 0 v Hp He Hl) as (Ht & Hq & Hr & Hs); [lia|].
  change 100%nat with (99 + 1)%nat.
  rewrite playback_trace_add, ticks_add, Ht.
  set (v99 := ticks h 99 v) in *.
  assert (Hlast : playhead_frame (playbackStep h v99) = inject_Z 0).
  { rewrite (playbackStep_integral h v99 99 Hq), Hr. reflexivity. }
  cbn [playback_trace ticks]. rewrite Hlast.
  split; [|split].
  - rewrite map_app. reflexivity.
  - reflexivity.
  - rewrite playbackStep_end_frame. exact Hs.
Qed.

Lemma playback_wraps_witness :
  exists w : World,
    widget0 = Some w
    /\ playhead_frame (playbackStep (store w) (view w)) = inject_Z 1
    /\ playback_trace (store w) 100 (view w) = map inject_Z (seqZ 1 99 ++ [0])
    /\ playhead_frame (ticks (store w) 100 (view w)) = inject_Z 0.
Proof.
  eexists. split; [vm_compute; reflexivity|].
  split.
  - refine (proj1 (proj2 (playback_wraps _ _)) 0 _). reflexivity.
  - refine ((fun H => conj (proj1 H) (proj1 (proj2 H)))
              (proj2 (proj2 (playback_wraps _ _)) _ _ _)); reflexivity.
Defined.

(** C6 fails on a fractional playhead: scrubbed to 98.7 with end frame 100,
    a tick leaves the playhead at 100, neither 99.7 nor 0. *)
Lemma playback_tick_rounds :
  exists (w : World) (v : TimelineView),
    widget0 = Some w
    /\ v = setPlayheadFrame (store w) (view w) (987 # 10)
    /\ playhead_frame v = (987 # 10)%Q
    /\ end_frame v = inject_Z 100
    /\ playhead_frame (playbackStep (store w) v) = inject_Z 100
    /\ ~ (playhead_frame (playbackStep (store w) v) == playhead_frame v + 1)%Q
    /\ ~ (playhead_frame (playbackStep (store w) v) == 0)%Q.
Proof.
  eexists. eexists.
  split; [vm_compute; reflexivity|].
  split; [reflexivity|].
  split; [reflexivity|].
  split; [reflexivity|].
  split; [vm_compute; reflexivity|].
  split; intros H; vm_compute in H; discriminate H.
Qed.

(** ** Releasing a clip: the candidate search *)

Lemma fold_min_keeps_zero (key : Z -> Z) (rest : list Z) (best : Z) :
  (forall c, 0 <= key c) -> key best = 0 ->
  fold_left (fun best c => if key c <? key best then c else best) rest best = best.
Proof.
  intros Hkey. revert best. induction rest as [|c rest IH]; intros best Hb.
  - reflexivity.
  - cbn [fold_left].
    destruct (Z.ltb_spec (key c) (key best)) as [Hlt|_].
    + specialize (Hkey c). lia.
    + apply IH. exact Hb.
Qed.

Lemma closest_candidate_original (self : nat) (raw duration : Z)
    (others : list (nat * ClipData)) :
  closest_candidate self raw duration others = Some raw.
Proof.
  unfold closest_candidate, py_min_by. f_equal.
  apply fold_min_keeps_zero.
  - intros c. apply Z.abs_nonneg.
  - rewrite Z.sub_diag. reflexivity.
Qed.

Lemma overlap_check_spec (self : nat) (candidate original duration : Z)
    (others : list (nat * ClipData)) :
  overlap_check self candidate original duration others
  = if overlaps_any self candidate duration others then original else candidate.
Proof.
  induction others as [|[r other] rest IH]; [reflexivity|].
  cbn [overlap_check overlaps_any existsb fst snd].
  fold (overlaps_any self candidate duration rest).
  destruct (Nat.eqb r self); cbn [negb andb orb]; [exact IH|].
  destruct (overlaps candidate duration other); cbn [orb]; [reflexivity|exact IH].
Qed.

Lemma chosen_frame_original (self : nat) (raw duration : Z)
    (others : list (nat * ClipData)) :
  chosen_frame self raw duration others = Some raw.
Proof.
  unfold chosen_frame. rewrite closest_candidate_original. cbn.
  rewrite overlap_check_spec. destruct (overlaps_any _ _ _ _); reflexivity.
Qed.

Lemma committed_start_trivial (h : Store) (v : TimelineView) (it : ClipItem)
    (x : Q) (me : ClipData) :
  clip_objs h !! clip_data it = Some me ->
  committed_start h v it x = trivial_resolver (layout v) (h_zoom v) x.
Proof.
  intros Hme. unfold committed_start, trivial_resolver.
  destruct (raw_frame (layout v) (h_zoom v) x) as [raw|]; [|reflexivity].
  cbn -[chosen_frame]. rewrite Hme. cbn -[chosen_frame].
  rewrite chosen_frame_original. reflexivity.
Qed.

Lemma committed_start_nonneg (h : Store) (v : TimelineView) (it : ClipItem)
    (x : Q) (s : Z) :
  committed_start h v it x = Some s -> 0 <= s.
Proof.
  unfold committed_start. intros H.
  destruct (raw_frame _ _ _) as [raw|]; [|discriminate H].
  cbn -[chosen_frame] in H.
  destruct (clip_objs h !! clip_data it) as [me|]; [|discriminate H].
  cbn -[chosen_frame] in H.
  destruct (chosen_frame _ _ _ _) as [c|]; [|discriminate H]. cbn in H.
  injection H as <-. lia.
Qed.

(** What a release leaves in the store: the committed frame, in the clip of
    the released item. *)
Lemma mouseReleaseEvent_inv (w w' : World) (i : nat) (x : Q) :
  mouseReleaseEvent w i x = Some w' ->
  exists it s,
    clipItems (scene (view w)) !! i = Some it
    /\ committed_start (store w) (view w) it x = Some s
    /\ store w' = set_start_frame (store w) (clip_data it) s.
Proof.
  unfold mouseReleaseEvent. intros H.
  destruct (clipItems (scene (view w)) !! i) as [it|] eqn:Hit; [|discriminate H].
  cbn -[committed_start] in H.
  destruct (committed_start (store w) (view w) it x) as [s|] eqn:Hs;
    [|discriminate H].
  cbn in H. injection H as <-. exists it, s.
  split; [reflexivity|]. split; [exact Hs|reflexivity].
Qed.

Lemma set_start_frame_lookup (h : Store) (c : nat) (s : Z) (me : ClipData) :
  clip_objs h !! c = Some me ->
  start_frame <$> clip_objs (set_start_frame h c s) !! c = Some s.
Proof.
  intros Hme. unfold set_start_frame. rewrite Hme. cbn [clip_objs].
  rewrite list_lookup_insert_eq; [reflexivity|].
  apply lookup_lt_Some in Hme. exact Hme.
Qed.

(** C3: whatever the other clips of the track, the released clip starts at
    [max(0, rawFrame)]: [min] picks [rawFrame], the overlap check returns
    it, and the handler agrees with the resolver that only rounds and
    clamps; where the division is defined the release does commit that
    frame. *)
Theorem resolver_is_trivial (w : World) (i : nat) (x : Q) (it : ClipItem)
    (me : ClipData) :
  clipItems (scene (view w)) !! i = Some it ->
  clip_objs (store w) !! clip_data it = Some me ->
  committed_start (store w) (view w) it x
  = trivial_resolver (layout (view w)) (h_zoom (view w)) x
  /\ (forall raw : Z,
        closest_candidate (clip_data it) raw (duration_frames me)
          (track_clips (store w) (track_data it)) = Some raw
        /\ chosen_frame (clip_data it) raw (duration_frames me)
             (track_clips (store w) (track_data it)) = Some raw)
  /\ (forall w' : World,
        mouseReleaseEvent w i x = Some w' ->
        start_frame <$> clip_objs (store w') !! clip_data it
        = trivial_resolver (layout (view w)) (h_zoom (view w)) x)
  /\ (~ (BASE_PIXELS_PER_FRAME (layout (view w)) * h_zoom (view w) == 0)%Q ->
      exists w' : World,
        mouseReleaseEvent w i x = Some w'
        /\ start_frame <$> clip_objs (store w') !! clip_data it
           = Some (Z.max 0
                     (py_round ((x - LEFT_MARGIN (layout (view w)))
                                / (BASE_PIXELS_PER_FRAME (layout (view w))
                                   * h_zoom (view w)))))).
Proof.
  intros Hit Hme.
  pose proof (committed_start_trivial (store w) (view w) it x me Hme) as Htriv.
  split; [exact Htriv|]. split; [|split].
  - intros raw. split.
    + apply closest_candidate_original.
    + apply chosen_frame_original.
  - intros w' Hrel.
    destruct (mouseReleaseEvent_inv w w' i x Hrel) as (it' & s & Hit' & Hs & Hst).
    rewrite Hit in Hit'. injection Hit' as <-.
    rewrite Hst, (set_start_frame_lookup _ _ _ me Hme), <- Htriv, Hs.
    reflexivity.
  - intros Hnz.
    assert (Hs : committed_start (store w) (view w) it x
                 = Some (Z.max 0
                     (py_round ((x - LEFT_MARGIN (layout (view w)))
                                / (BASE_PIXELS_PER_FRAME (layout (view w))
                                   * h_zoom (view w)))))).
    { rewrite Htriv. unfold trivial_resolver, raw_frame.
      rewrite (xToFrame_defined _ _ _ Hnz). reflexivity. }
    eexists. split.
    + unfold mouseReleaseEvent. rewrite Hit. cbn. rewrite Hs. cbn. reflexivity.
    + cbn [store]. apply (set_start_frame_lookup _ _ _ me Hme).
Qed.

Lemma resolver_is_trivial_witness :
  exists (w : World) (it : ClipItem),
    (w0 ← widget0; run w0 snap_ops) = Some w
    /\ clipItems (scene (view w)) !! 1%nat = Some it
    /\ committed_start (store w) (view w) it (pixel_of_frame 101)
       = trivial_resolver (layout (view w)) (h_zoom (view w)) (pixel_of_frame 101)
    /\ trivial_resolver (layout (view w)) (h_zoom (view w)) (pixel_of_frame 101)
       = Some 101.
Proof.
  eexists. eexists.
  split; [vm_compute; reflexivity|].
  split; [reflexivity|].
  split; [|vm_compute; reflexivity].
  refine (proj1 (resolver_is_trivial _ 1%nat _ _ (mkClipData "B" 300 20) _ _));
    reflexivity.
Defined.

(** ** Releasing a clip: the overlap fallback *)

(** C4, as the code has it: the overlap check replaces a candidate that
    overlaps another clip of the track by [rawFrame] and keeps one that
    does not; the handler commits the checked candidate through its clamp
    at 0, so on an overlap it commits [max(0, rawFrame)] and looks for no
    free place; with A over [0, 50) and B over [50, 100), a clip C of 10
    frames released at [rawFrame = 45] starts at 45 and still overlaps A. *)
Theorem overlap_falls_back_to_raw :
  (forall (self : nat) (cand raw duration : Z) (others : list (nat * ClipData)),
      (overlaps_any self cand duration others = true ->
       overlap_check self cand raw duration others = raw)
      /\ (overlaps_any self cand duration others = false ->
          overlap_check self cand raw duration others = cand))
  /\ (forall (h : Store) (v : TimelineView) (it : ClipItem) (x : Q)
             (raw : Z) (me : ClipData),
        raw_frame (layout v) (h_zoom v) x = Some raw ->
        clip_objs h !! clip_data it = Some me ->
        exists cand : Z,
          closest_candidate (clip_data it) raw (duration_frames me)
            (track_clips h (track_data it)) = Some cand
          /\ committed_start h v it x
             = Some (Z.max 0
                       (overlap_check (clip_data it) cand raw (duration_frames me)
                          (track_clips h (track_data it))))
          /\ (overlaps_any (clip_data it) cand (duration_frames me)
                (track_clips h (track_data it)) = true ->
              committed_start h v it x = Some (Z.max 0 raw)))
  /\ (exists (w w' : World) (a : ClipData),
        (w0 ← widget0; run w0 rejection_ops) = Some w
        /\ raw_frame (layout (view w)) (h_zoom (view w)) (pixel_of_frame 45)
           = Some 45
        /\ step w (ClipRelease 2 (pixel_of_frame 45)) = Some w'
        /\ start_frame <$> clip_objs (store w') !! 2%nat = Some 45
        /\ clip_objs (store w') !! 0%nat = Some a
        /\ (start_frame a, duration_frames a) = (0, 50)
        /\ overlaps 45 10 a = true).
Proof.
  split; [|split].
  - intros self cand raw duration others.
    rewrite overlap_check_spec. split; intros ->; reflexivity.
  - intros h v it x raw me Hraw Hme. exists raw.
    split; [apply closest_candidate_original|].
    assert (Hcs : committed_start h v it x
                  = Some (Z.max 0
                            (overlap_check (clip_data it) raw raw (duration_frames me)
                               (track_clips h (track_data it))))).
    { unfold committed_start. rewrite Hraw. cbn -[chosen_frame overlap_check].
      rewrite Hme. cbn -[chosen_frame overlap_check].
      unfold chosen_frame. rewrite closest_candidate_original. reflexivity. }
    split; [exact Hcs|].
    intros Hov. rewrite Hcs, overlap_check_spec, Hov. reflexivity.
  - eexists. eexists. eexists.
    split; [vm_compute; reflexivity|].
    split; [vm_compute; reflexivity|].
    split; [vm_compute; reflexivity|].
    split; [vm_compute; reflexivity|].
    split; [vm_compute; reflexivity|].
    split; vm_compute; reflexivity.
Qed.

Lemma overlap_falls_back_to_raw_witness :
  overlap_check 2 48 45 10
    [(0%nat, mkClipData "A" 0 50); (1%nat, mkClipData "B" 50 50);
     (2%nat, mkClipData "C" 200 10)] = 45.
Proof.
  refine (proj1 (proj1 overlap_falls_back_to_raw 2%nat 48 45 10 _) _).
  vm_compute. reflexivity.
Defined.

(** C4 fails where [rawFrame] is negative: released at [rawFrame = -5],
    where it overlaps A over [0, 50), the clip C starts at 0, not at -5. *)
Lemma overlap_fallback_is_clamped :
  exists (w w' : World) (it : ClipItem) (me : ClipData),
    (w0 ← widget0; run w0 rejection_ops) = Some w
    /\ clipItems (scene (view w)) !! 2%nat = Some it
    /\ clip_objs (store w) !! clip_data it = Some me
    /\ raw_frame (layout (view w)) (h_zoom (view w)) (pixel_of_frame (-5))
       = Some (-5)
    /\ overlaps_any (clip_data it) (-5) (duration_frames me)
         (track_clips (store w) (track_data it)) = true
    /\ step w (ClipRelease 2 (pixel_of_frame (-5))) = Some w'
    /\ start_frame <$> clip_objs (store w') !! clip_data it = Some 0.
Proof.
  eexists. eexists. eexists. eexists.
  split; [vm_compute; reflexivity|].
  split; [reflexivity|].
  split; [reflexivity|].
  split; [vm_compute; reflexivity|].
  split; [vm_compute; reflexivity|].
  split; vm_compute; reflexivity.
Qed.

(** C2, on the code: with A ending at frame 100 and B released at
    [rawFrame = 101], the handler does add the snap candidate 100, which
    overlaps nothing, yet [min] returns 101 (distance 0 against 1) and B
    starts at 101. *)
Theorem snap_candidate_never_wins :
  exists (w w' : World) (it : ClipItem) (b : ClipData),
    (w0 ← widget0; run w0 snap_ops) = Some w
    /\ clipItems (scene (view w)) !! 1%nat = Some it
    /\ clip_objs (store w) !! clip_data it = Some b
    /\ raw_frame (layout (view w)) (h_zoom (view w)) (pixel_of_frame 101)
       = Some 101
    /\ 101 :: snap_options (clip_data it) 101 (duration_frames b)
                (track_clips (store w) (track_data it)) = [101; 100]
    /\ overlaps_any (clip_data it) 100 (duration_frames b)
         (track_clips (store w) (track_data it)) = false
    /\ closest_candidate (clip_data it) 101 (duration_frames b)
         (track_clips (store w) (track_data it)) = Some 101
    /\ step w (ClipRelease 1 (pixel_of_frame 101)) = Some w'
    /\ start_frame <$> clip_objs (store w') !! clip_data it = Some 101.
Proof.
  eexists. eexists. eexists. eexists.
  split; [vm_compute; reflexivity|].
  split; [reflexivity|].
  split; [reflexivity|].
  split; [vm_compute; reflexivity|].
  split; [vm_compute; reflexivity|].
  split; [vm_compute; reflexivity|].
  split; [vm_compute; reflexivity|].
  split; vm_compute; reflexivity.
Qed.

(** ** Non-negative start frames *)

Lemma set_start_frame_keeps_sign (h : Store) (c : nat) (s : Z) :
  clips_nonneg h -> 0 <= s -> clips_nonneg (set_start_frame h c s).
Proof.
  unfold clips_nonneg, set_start_frame. intros Hh Hs.
  destruct (clip_objs h !! c) as [cl|]; [|exact Hh].
  cbn [clip_objs]. apply Forall_insert; [exact Hh|exact Hs].
Qed.

Lemma step_nonneg (w w' : World) (o : op) :
  clips_nonneg (store w) -> creates_nonneg o -> step w o = Some w' ->
  clips_nonneg (store w').
Proof.
  intros Hw Ho Hs. destruct o; cbn -[mouseReleaseEvent] in Hs.
  - injection Hs as <-. unfold clips_nonneg. cbn [store clip_objs].
    apply Forall_app. split; [exact Hw|].
    constructor; [exact Ho|constructor].
  - injection Hs as <-. exact Hw.
  - unfold add_clip in Hs.
    destruct (track_objs (store w) !! track); [|discriminate Hs]. cbn in Hs.
    destruct (clip_objs (store w) !! clip); [|discriminate Hs]. cbn in Hs.
    injection Hs as <-. exact Hw.
  - destruct (track_objs (store w) !! track); [|discriminate Hs].
    cbn in Hs. injection Hs as <-. exact Hw.
  - injection Hs as <-. exact Hw.
  - injection Hs as <-. exact Hw.
  - injection Hs as <-. exact Hw.
  - injection Hs as <-. exact Hw.
  - injection Hs as <-. exact Hw.
  - injection Hs as <-. exact Hw.
  - destruct (updatePlayhead _ _ _); [|discriminate Hs].
    cbn in Hs. injection Hs as <-. exact Hw.
  - destruct (EndLine_itemChange _ _ _); [|discriminate Hs]. cbn in Hs.
    destruct (updateEndFrame _ _ _); [|discriminate Hs].
    cbn in Hs. injection Hs as <-. exact Hw.
  - destruct (mouseReleaseEvent_inv w w' i x Hs) as (it & s & _ & Hcs & ->).
    apply set_start_frame_keeps_sign; [exact Hw|].
    apply (committed_start_nonneg _ _ _ _ _ Hcs).
Qed.

Lemma run_nonneg (ops : list op) :
  forall w w' : World,
    clips_nonneg (store w) -> Forall creates_nonneg ops -> run w ops = Some w' ->
    clips_nonneg (store w').
Proof.
  induction ops as [|o ops IH]; intros w w' Hw Hops Hrun.
  - cbn in Hrun. injection Hrun as <-. exact Hw.
  - cbn [run] in Hrun. apply Forall_cons in Hops. destruct Hops as [Ho Hops].
    destruct (step w o) as [w1|] eqn:Hstep; [|discriminate Hrun].
    cbn -[run] in Hrun.
    apply (IH w1 w'); [|exact Hops|exact Hrun].
    apply (step_nonneg w w1 o Hw Ho Hstep).
Qed.

(** C8: a new widget holds no clip, and if every clip is created with a
    non-negative start frame then after any run of operations every clip
    starts at a frame [>= 0]; a release stores [max(0, chosenFrame)], which
    is never negative. *)
Theorem start_frame_nonneg (c : Theme.config) (w0 w : World) (ops : list op) :
  TimelineWidget_init c = Some w0 ->
  Forall creates_nonneg ops ->
  run w0 ops = Some w ->
  clips_nonneg (store w0)
  /\ clips_nonneg (store w)
  /\ (forall (i : nat) (x : Q) (w' : World),
        mouseReleaseEvent w i x = Some w' ->
        clips_nonneg (store w')
        /\ exists (it : ClipItem) (me : ClipData) (raw chosen : Z),
             clipItems (scene (view w)) !! i = Some it
             /\ clip_objs (store w) !! clip_data it = Some me
             /\ raw_frame (layout (view w)) (h_zoom (view w)) x = Some raw
             /\ chosen_frame (clip_data it) raw (duration_frames me)
                  (track_clips (store w) (track_data it)) = Some chosen
             /\ start_frame <$> clip_objs (store w') !! clip_data it
                = Some (Z.max 0 chosen)
             /\ 0 <= Z.max 0 chosen).
Proof.
  intros Hinit Hops Hrun.
  assert (H0 : clips_nonneg (store w0)).
  { unfold TimelineWidget_init in Hinit.
    destruct (TimelineView_init _); [|discriminate Hinit].
    cbn in Hinit. injection Hinit as <-. constructor. }
  assert (Hw : clips_nonneg (store w)) by exact (run_nonneg ops w0 w H0 Hops Hrun).
  split; [exact H0|]. split; [exact Hw|].
  intros i x w' Hrel. split.
  - apply (step_nonneg w w' (ClipRelease i x) Hw I Hrel).
  - destruct (mouseReleaseEvent_inv w w' i x Hrel) as (it & s & Hit & Hcs & Hst).
    unfold committed_start in Hcs.
    destruct (raw_frame _ _ _) as [raw|] eqn:Hraw; [|discriminate Hcs].
    cbn -[chosen_frame] in Hcs.
    destruct (clip_objs (store w) !! clip_data it) as [me|] eqn:Hme;
      [|discriminate Hcs].
    cbn -[chosen_frame] in Hcs.
    destruct (chosen_frame _ _ _ _) as [chosen|] eqn:Hch; [|discriminate Hcs].
    cbn in Hcs. injection Hcs as <-.
    exists it, me, raw, chosen.
    split; [exact Hit|]. split; [exact Hme|]. split; [reflexivity|].
    split; [exact Hch|]. split; [|lia].
    rewrite Hst. apply (set_start_frame_lookup _ _ _ me Hme).
Qed.

Lemma start_frame_nonneg_witness :
  exists (w0 w w' : World),
    widget0 = Some w0
    /\ run w0 snap_ops = Some w
    /\ raw_frame (layout (view w)) (h_zoom (view w)) 100 = Some (-9)
    /\ mouseReleaseEvent w 1 100 = Some w'
    /\ start_frame <$> clip_objs (store w') !! 1%nat = Some 0
    /\ clips_nonneg (store w').
Proof.
  eexists. eexists. eexists.
  split; [vm_compute; reflexivity|].
  split; [vm_compute; reflexivity|].
  split; [vm_compute; reflexivity|].
  split; [vm_compute; reflexivity|].
  split; [vm_compute; reflexivity|].
  refine (proj1 (proj2 (proj2
            (start_frame_nonneg Theme.CNone _ _ snap_ops _ _ _)) 1%nat 100%Q _ _)).
  - vm_compute; reflexivity.
  - unfold snap_ops. repeat constructor; cbn; lia.
  - vm_compute; reflexivity.
  - vm_compute; reflexivity.
Defined.

(** * Further properties *)

(** ** Timecodes *)

(** X1: at a positive frame rate the timecode fields are defined, minutes
    and seconds lie in [0, 60), the frame field in [0, fps), and the four
    fields recompose to the rounded frame number. *)
Theorem timecode_fields_recompose (frames : Q) (fps : Z) :
  0 < fps ->
  exists hours minutes seconds_rem frames_rem : Z,
    timecode_fields frames fps = Some (hours, minutes, seconds_rem, frames_rem)
    /\ 0 <= minutes < 60
    /\ 0 <= seconds_rem < 60
    /\ 0 <= frames_rem < fps
    /\ ((hours * 3600 + minutes * 60 + seconds_rem) * fps + frames_rem
        = py_round frames).
Proof.
  intros Hfps. unfold timecode_fields.
  destruct (Z.eqb_spec fps 0) as [->|_]; [lia|].
  set (F := py_round frames). set (S := F / fps).
  eexists _, _, _, _. split; [reflexivity|].
  assert (Hsec : S mod 60 = (S mod 3600) mod 60).
  { symmetry. apply Z.mod_mod_divide. exists 60. reflexivity. }
  pose proof (Z.mod_pos_bound F fps Hfps) as Hf.
  pose proof (Z.mod_pos_bound S 3600 ltac:(lia)) as Hm.
  pose proof (Z.mod_pos_bound (S mod 3600) 60 ltac:(lia)) as Hs.
  pose proof (Z.div_mod F fps ltac:(lia)) as HF. fold S in HF.
  pose proof (Z.div_mod S 3600 ltac:(lia)) as HS.
  pose proof (Z.div_mod (S mod 3600) 60 ltac:(lia)) as HM.
  split; [|split; [|split]].
  - split; [apply Z.div_pos; lia|apply Z.div_lt_upper_bound; lia].
  - rewrite Hsec. exact Hs.
  - exact Hf.
  - rewrite Hsec. nia.
Qed.

Lemma timecode_fields_recompose_witness :
  exists hours minutes seconds_rem frames_rem : Z,
    timecode_fields (-5 # 2) 24 = Some (hours, minutes, seconds_rem, frames_rem)
    /\ 0 <= minutes < 60
    /\ 0 <= seconds_rem < 60
    /\ 0 <= frames_rem < 24
    /\ ((hours * 3600 + minutes * 60 + seconds_rem) * 24 + frames_rem
        = py_round (-5 # 2)).
Proof.
  apply (timecode_fields_recompose (-5 # 2) 24). lia.
Defined.

Lemma string_length_app (s1 s2 : string) :
  String.length (s1 +:+ s2) = (String.length s1 + String.length s2)%nat.
Proof.
  induction s1 as [|a s1 IH]; [reflexivity|].
  simpl. f_equal. exact IH.
Qed.

Lemma format_02_length (n : Z) :
  0 <= n < 100 -> String.length (format_02 n) = 2%nat.
Proof.
  intros Hn.
  assert (Hall : forallb (fun k => Nat.eqb (String.length (format_02 (Z.of_nat k))) 2)
                   (seq 0 100) = true) by (vm_compute; reflexivity).
  rewrite forallb_forall in Hall.
  specialize (Hall (Z.to_nat n)).
  rewrite Z2Nat.id in Hall by lia.
  apply Nat.eqb_eq, Hall, in_seq. lia.
Qed.

(** X2: at a frame rate of at most 100 and below 100 hours, the timecode of
    a non-negative frame number is a string of exactly 11 characters
    ([HH:MM:SS:FF]). *)
Theorem frames_to_timecode_length (frames : Q) (fps : Z) :
  0 < fps <= 100 ->
  0 <= py_round frames < 360000 * fps ->
  exists s : string,
    frames_to_timecode frames fps = Some s /\ String.length s = 11%nat.
Proof.
  intros Hfps Hfr. unfold frames_to_timecode, timecode_fields.
  destruct (Z.eqb_spec fps 0) as [->|_]; [lia|].
  set (F := py_round frames) in *. set (S := F / fps).
  eexists. split; [reflexivity|].
  assert (HS : 0 <= S < 360000).
  { split; [apply Z.div_pos; lia|apply Z.div_lt_upper_bound; lia]. }
  pose proof (Z.mod_pos_bound F fps ltac:(lia)) as Hf.
  pose proof (Z.mod_pos_bound S 3600 ltac:(lia)) as Hm.
  pose proof (Z.mod_pos_bound S 60 ltac:(lia)) as Hs.
  rewrite !string_length_app, !format_02_length.
  - reflexivity.
  - lia.
  - lia.
  - split; [apply Z.div_pos; lia|apply Z.div_lt_upper_bound; lia].
  - split; [apply Z.div_pos; lia|apply Z.div_lt_upper_bound; lia].
Qed.

Lemma frames_to_timecode_length_witness :
  exists s : string,
    frames_to_timecode (2073599 # 1) 24 = Some s /\ String.length s = 11%nat.
Proof.
  apply (frames_to_timecode_length (2073599 # 1) 24).
  - lia.
  - vm_compute. split; [discriminate|reflexivity].
Defined.

(** ** The minimum end frame *)

(** The nested loops of [minimum_end_frame] as one loop over all clips. *)
Lemma minimum_end_frame_view_clips (h : Store) (v : TimelineView) :
  minimum_end_frame h v
  = fold_left
      (fun max_end (clip : nat * ClipData) =>
         let end_ := start_frame clip.2 + duration_frames clip.2 in
         if end_ >? max_end then end_ else max_end) (view_clips h v) 0.
Proof.
  unfold minimum_end_frame, view_clips.
  generalize 0. induction (tracks v) as [|t ts IH]; intros a; [reflexivity|].
  cbn [fold_left map concat]. rewrite fold_left_app. apply IH.
Qed.

Lemma fold_end_bounds (l : list (nat * ClipData)) (a : Z) :
  let m := fold_left
             (fun max_end (clip : nat * ClipData) =>
                let end_ := start_frame clip.2 + duration_frames clip.2 in
                if end_ >? max_end then end_ else max_end) l a in
  a <= m
  /\ Forall (fun c : nat * ClipData => clip_end c.2 <= m) l
  /\ (m = a \/ Exists (fun c : nat * ClipData => m = clip_end c.2) l).
Proof.
  revert a. induction l as [|c l IH]; intros a; cbv zeta.
  - cbn [fold_left]. split; [lia|]. split; [constructor|left; reflexivity].
  - cbn [fold_left].
    set (a' := if start_frame c.2 + duration_frames c.2 >? a
               then start_frame c.2 + duration_frames c.2 else a).
    specialize (IH a'). cbv zeta in IH. destruct IH as (Hle & Hall & Hex).
    assert (Ha' : a <= a' /\ clip_end c.2 <= a'
                  /\ (a' = a \/ a' = clip_end c.2)).
    { unfold a', clip_end.
      destruct (Z.gtb_spec (start_frame c.2 + duration_frames c.2) a); lia. }
    split; [lia|]. split.
    + constructor; [lia|exact Hall].
    + destruct Hex as [Hex|Hex].
      * destruct Ha' as (_ & _ & [Ha'|Ha']).
        -- left. lia.
        -- right. constructor. lia.
      * right. apply Exists_cons. right. exact Hex.
Qed.

Lemma elem_of_deref {A} (objs : list A) (refs : list nat) (r : nat) (a : A) :
  (r, a) ∈ deref objs refs <-> r ∈ refs /\ objs !! r = Some a.
Proof.
  unfold deref. rewrite list_elem_of_omap. split.
  - intros (r' & Hin & Hf).
    destruct (objs !! r') as [a'|] eqn:E; [|discriminate Hf].
    cbn in Hf. injection Hf as <- <-. auto.
  - intros (Hin & Hl). exists r. split; [exact Hin|]. rewrite Hl. reflexivity.
Qed.

Lemma elem_of_view_clips (h : Store) (v : TimelineView) (r : nat) (c : ClipData) :
  (r, c) ∈ view_clips h v
  <-> exists (t : nat) (tr : TrackData),
        t ∈ tracks v /\ track_objs h !! t = Some tr
        /\ r ∈ clips tr /\ clip_objs h !! r = Some c.
Proof.
  unfold view_clips. rewrite list_elem_of_In, in_concat. split.
  - intros (l & Hl & Hin). apply in_map_iff in Hl. destruct Hl as (t & <- & Ht).
    unfold track_clips in Hin.
    destruct (track_objs h !! t) as [tr|] eqn:Etr; [|destruct Hin].
    apply list_elem_of_In, elem_of_deref in Hin. destruct Hin as [Hr Hc].
    exists t, tr. rewrite list_elem_of_In. auto.
  - intros (t & tr & Ht & Htr & Hr & Hc).
    exists (track_clips h t). split.
    + apply in_map. apply list_elem_of_In. exact Ht.
    + unfold track_clips. rewrite Htr. apply list_elem_of_In, elem_of_deref. auto.
Qed.

Lemma minimum_end_frame_upper (h : Store) (v : TimelineView)
    (t : nat) (tr : TrackData) (r : nat) (c : ClipData) :
  t ∈ tracks v -> track_objs h !! t = Some tr ->
  r ∈ clips tr -> clip_objs h !! r = Some c ->
  start_frame c + duration_frames c <= minimum_end_frame h v.
Proof.
  intros Ht Htr Hr Hc. rewrite minimum_end_frame_view_clips.
  destruct (fold_end_bounds (view_clips h v) 0) as (_ & Hall & _).
  rewrite Forall_forall in Hall.
  apply (Hall (r, c)). apply elem_of_view_clips. eauto 10.
Qed.

(** X3: [minimum_end_frame()] is never negative, is at least the end of
    every clip of every track of the view, and is either 0 or the end of
    one of those clips. *)
Theorem minimum_end_frame_is_max (h : Store) (v : TimelineView) :
  0 <= minimum_end_frame h v
  /\ (forall (t : nat) (tr : TrackData) (r : nat) (c : ClipData),
        t ∈ tracks v -> track_objs h !! t = Some tr ->
        r ∈ clips tr -> clip_objs h !! r = Some c ->
        start_frame c + duration_frames c <= minimum_end_frame h v)
  /\ (minimum_end_frame h v = 0
      \/ exists (t : nat) (tr : TrackData) (r : nat) (c : ClipData),
           t ∈ tracks v /\ track_objs h !! t = Some tr
           /\ r ∈ clips tr /\ clip_objs h !! r = Some c
           /\ minimum_end_frame h v = start_frame c + duration_frames c).
Proof.
  rewrite minimum_end_frame_view_clips.
  destruct (fold_end_bounds (view_clips h v) 0) as (Hle & Hall & Hex).
  split; [exact Hle|]. split.
  - intros t tr r c Ht Htr Hr Hc.
    rewrite <- minimum_end_frame_view_clips.
    apply (minimum_end_frame_upper h v t tr r c Ht Htr Hr Hc).
  - destruct Hex as [Hex|Hex]; [left; exact Hex|right].
    apply Exists_exists in Hex. destruct Hex as ([r c] & Hin & Heq).
    apply elem_of_view_clips in Hin. destruct Hin as (t & tr & Ht & Htr & Hr & Hc).
    exists t, tr, r, c. auto 10.
Qed.

Lemma minimum_end_frame_is_max_witness :
  exists w : World,
    (w0 ← widget0; run w0 rejection_ops) = Some w
    /\ 50 + 50 <= minimum_end_frame (store w) (view w).
Proof.
  eexists. split; [vm_compute; reflexivity|].
  refine (proj1 (proj2 (minimum_end_frame_is_max _ _)) 0%nat
            (mkTrackData "Video 1" (inject_Z 60) [0; 1; 2]%nat) 1%nat
            (mkClipData "B" 50 50) _ _ _ _).
  - apply list_elem_of_In. left. reflexivity.
  - reflexivity.
  - apply list_elem_of_In. right. left. reflexivity.
  - reflexivity.
Defined.

(** X4: after [updateLayout] the end frame is an integer, at least 100 and
    at least 24 frames past the end of every clip of every track of the
    view. *)
Theorem updateLayout_end_frame_covers (h : Store) (v : TimelineView) :
  exists e : Z,
    end_frame (updateLayout h v) = inject_Z e
    /\ 100 <= e
    /\ (forall (t : nat) (tr : TrackData) (r : nat) (c : ClipData),
          t ∈ tracks v -> track_objs h !! t = Some tr ->
          r ∈ clips tr -> clip_objs h !! r = Some c ->
          start_frame c + duration_frames c + 24 <= e).
Proof.
  exists (Z.max (minimum_end_frame h v + 24) 100).
  split; [reflexivity|]. split; [lia|].
  intros t tr r c Ht Htr Hr Hc.
  pose proof (minimum_end_frame_upper h v t tr r c Ht Htr Hr Hc).
  lia.
Qed.

Lemma updateLayout_end_frame_covers_witness :
  exists (w : World) (e : Z),
    (w0 ← widget0; run w0 rejection_ops) = Some w
    /\ end_frame (updateLayout (store w) (view w)) = inject_Z e
    /\ 50 + 50 + 24 <= e.
Proof.
  let o := eval vm_compute in (w0 ← widget0; run w0 rejection_ops) in
  match o with
  | Some ?W =>
      destruct (updateLayout_end_frame_covers (store W) (view W))
        as (e & He & _ & Hall);
      exists W, e
  end.
  split; [vm_compute; reflexivity|]. split; [exact He|].
  apply (Hall 0%nat (mkTrackData "Video 1" (inject_Z 60) [0; 1; 2]%nat) 1%nat
           (mkClipData "B" 50 50)).
  - apply list_elem_of_In. left. reflexivity.
  - reflexivity.
  - apply list_elem_of_In. right. left. reflexivity.
  - reflexivity.
Defined.

(** ** What a layout pass depends on *)

Lemma layout_items_ext (h : Store) (v v' : TimelineView)
    (trs : list (nat * TrackData)) :
  layout v' = layout v -> h_zoom v' = h_zoom v -> v_zoom v' = v_zoom v ->
  forall y : Q, layout_items h v' trs y = layout_items h v trs y.
Proof.
  intros Hl Hh Hv. induction trs as [|track rest IH]; intros y; [reflexivity|].
  cbn [layout_items]. rewrite IH. unfold clip_item. rewrite Hl, Hh, Hv.
  reflexivity.
Qed.

(** [updateLayout] reads neither the stored end frame nor the old scene. *)
Lemma updateLayout_ext (h : Store) (v v' : TimelineView) :
  layout v' = layout v -> h_zoom v' = h_zoom v -> v_zoom v' = v_zoom v ->
  playhead_frame v' = playhead_frame v ->
  bottom_frame_offset v' = bottom_frame_offset v ->
  tracks v' = tracks v -> timeLabel_frame v' = timeLabel_frame v ->
  updateLayout h v' = updateLayout h v.
Proof.
  intros Hl Hh Hv Hp Hb Ht Hlab. unfold updateLayout.
  rewrite (layout_items_ext h v v' _ Hl Hh Hv).
  unfold stacked_height, minimum_end_frame.
  rewrite Hl, Hh, Hv, Hp, Hb, Ht, Hlab. reflexivity.
Qed.

(** X5: laying out twice is laying out once: a second [updateLayout] on an
    unchanged store changes nothing, geometry included. *)
Theorem updateLayout_idempotent (h : Store) (v : TimelineView) :
  updateLayout h (updateLayout h v) = updateLayout h v.
Proof. apply updateLayout_ext; reflexivity. Qed.

(** X6: the argument of [setEndFrame] has no effect: the call leaves
    exactly the view that [updateLayout] alone leaves, and so does a drag
    of the end marker, wherever it goes. *)
Theorem setEndFrame_is_updateLayout (h : Store) (v : TimelineView) (frame : Q) :
  setEndFrame h v frame = updateLayout h v
  /\ (forall (x : Q) (w' : World),
        step (mkWorld h v) (EndLineDrag x) = Some w' ->
        w' = mkWorld h (updateLayout h v)).
Proof.
  split; [apply updateLayout_ext; reflexivity|].
  intros x w' H. cbn -[updateLayout] in H.
  destruct (EndLine_itemChange h v x) as [x'|]; [|discriminate H].
  cbn -[updateLayout] in H. unfold updateEndFrame in H.
  destruct (xToFrame (layout v) x' (h_zoom v)) as [f|]; [|discriminate H].
  cbn -[updateLayout] in H. injection H as <-. f_equal.
  apply updateLayout_ext; reflexivity.
Qed.

Lemma setEndFrame_is_updateLayout_witness :
  exists w w' : World,
    (w0 ← widget0; run w0 single_clip_ops) = Some w
    /\ step w (EndLineDrag (pixel_of_frame 500)) = Some w'
    /\ w' = mkWorld (store w) (updateLayout (store w) (view w)).
Proof.
  eexists. eexists. split; [vm_compute; reflexivity|].
  refine ((fun H => conj H
             (proj2 (setEndFrame_is_updateLayout _ _ 0) (pixel_of_frame 500) _ H))
            _).
  vm_compute. reflexivity.
Defined.

(** X7: on an integral playhead [p] a tick is [setPlayheadFrame(p + 1)], or
    [setPlayheadFrame(0)] when [p + 1] reaches the end frame; and
    [updateFromPlayhead] agrees with [setPlayheadFrame] on every integer. *)
Theorem playbackStep_is_setPlayheadFrame (h : Store) (v : TimelineView) (p : Z) :
  playhead_frame v = inject_Z p ->
  playbackStep h v
  = setPlayheadFrame h v
      (inject_Z (if Qle_bool (end_frame v) (inject_Z (p + 1)) then 0 else p + 1))
  /\ (forall n : Z,
        updateFromPlayhead h v (inject_Z n) = setPlayheadFrame h v (inject_Z n)).
Proof.
  intros Hp.
  assert (Hsame : forall n : Z,
             updateFromPlayhead h v (inject_Z n) = setPlayheadFrame h v (inject_Z n)).
  { intros n. unfold updateFromPlayhead, setPlayheadFrame.
    rewrite py_round_inject_Z. reflexivity. }
  split; [|exact Hsame].
  rewrite <- Hsame. unfold playbackStep.
  cbn [playhead_frame end_frame with_playhead_frame].
  rewrite Hp, inject_Z_plus_1. unfold Qgeb.
  destruct (Qle_bool (end_frame v) (inject_Z (p + 1))); reflexivity.
Qed.

Lemma playbackStep_is_setPlayheadFrame_witness :
  exists w : World,
    widget0 = Some w
    /\ playbackStep (store w) (view w)
       = setPlayheadFrame (store w) (view w) (inject_Z 1).
Proof.
  eexists. split; [vm_compute; reflexivity|].
  refine (proj1 (playbackStep_is_setPlayheadFrame _ _ 0 _)). reflexivity.
Defined.

(** X8: dragging a playhead item to pixel [x] raises exactly when
    [BASE_PIXELS_PER_FRAME * h_zoom] is zero; otherwise the playhead is the
    frame under [x] as the division gives it, unrounded, the time label
    holds its rounding, the marker is placed at the pixel of the stored
    frame and the tracks are untouched. *)
Theorem updatePlayhead_follows_pointer (h : Store) (v : TimelineView) (x : Q) :
  (updatePlayhead h v x = None
   <-> (BASE_PIXELS_PER_FRAME (layout v) * h_zoom v == 0)%Q)
  /\ (forall v' : TimelineView,
        updatePlayhead h v x = Some v' ->
        xToFrame (layout v) x (h_zoom v) = Some (playhead_frame v')
        /\ timeLabel_frame v' = py_round (playhead_frame v')
        /\ playhead_x (scene v')
           = frameToX (layout v) (playhead_frame v') (h_zoom v)
        /\ tracks v' = tracks v).
Proof.
  unfold updatePlayhead, xToFrame.
  destruct (Qeq_bool (BASE_PIXELS_PER_FRAME (layout v) * h_zoom v) 0) eqn:E.
  - apply Qeq_bool_iff in E. split; [split; auto|]. intros v' H. discriminate H.
  - apply Qeq_bool_neq in E. split.
    + split; [intros H; discriminate H|intros H; contradiction].
    + intros v' H. cbn in H. injection H as <-.
      repeat split; reflexivity.
Qed.

Lemma updatePlayhead_follows_pointer_witness :
  exists (w : World) (v' : TimelineView),
    widget0 = Some w
    /\ updatePlayhead (store w) (view w) (400 # 1) = Some v'
    /\ timeLabel_frame v' = py_round (playhead_frame v').
Proof.
  eexists. eexists. split; [vm_compute; reflexivity|].
  refine ((fun H => conj H
             (proj1 (proj2 (proj2 (updatePlayhead_follows_pointer _ _ _) _ H))))
            _).
  reflexivity.
Defined.

(** ** The end marker's drag clamp *)

Lemma xToFrame_frameToX (lay : Layout) (f z : Q) :
  ~ (BASE_PIXELS_PER_FRAME lay * z == 0)%Q ->
  exists g, xToFrame lay (frameToX lay f z) z = Some g /\ (g == f)%Q.
Proof.
  intros Hs. eexists. split; [apply xToFrame_defined; exact Hs|].
  unfold frameToX. field.
  split; intros Hz; apply Hs; rewrite Hz; ring.
Qed.

Lemma Qltb_false_le (x y : Q) : Qltb x y = false <-> (y <= x)%Q.
Proof.
  unfold Qltb. rewrite negb_false_iff. apply Qle_bool_iff.
Qed.

(** X9: where the division is defined, [EndLineItem.itemChange] accepts a
    position whose frame is not below [minimum_end_frame()] as it is and
    replaces any other by the pixel of [minimum_end_frame()]; the accepted
    position is accepted unchanged when offered again. *)
Theorem EndLine_itemChange_clamps (h : Store) (v : TimelineView) (x : Q) :
  ~ (BASE_PIXELS_PER_FRAME (layout v) * h_zoom v == 0)%Q ->
  exists x' f : Q,
    EndLine_itemChange h v x = Some x'
    /\ xToFrame (layout v) x (h_zoom v) = Some f
    /\ ((inject_Z (minimum_end_frame h v) <= f)%Q -> x' = x)
    /\ ((f < inject_Z (minimum_end_frame h v))%Q ->
        x' = frameToX (layout v) (inject_Z (minimum_end_frame h v)) (h_zoom v))
    /\ EndLine_itemChange h v x' = Some x'.
Proof.
  intros Hs. unfold EndLine_itemChange.
  rewrite (xToFrame_defined _ x _ Hs). cbn [mbind option_bind].
  set (f0 := ((x - LEFT_MARGIN (layout v))
              / (BASE_PIXELS_PER_FRAME (layout v) * h_zoom v))%Q).
  set (m := inject_Z (minimum_end_frame h v)).
  destruct (Qltb f0 m) eqn:E.
  - exists (frameToX (layout v) m (h_zoom v)), f0.
    split; [reflexivity|]. split; [reflexivity|]. split; [|split].
    + intros Hmf. apply Qltb_false_le in Hmf. rewrite Hmf in E. discriminate E.
    + intros _. reflexivity.
    + rewrite xToFrame_defined by exact Hs. cbn [mbind option_bind].
      clear E. destruct (Qltb _ m); reflexivity.
  - exists x, f0.
    split; [reflexivity|]. split; [reflexivity|]. split; [|split].
    + intros _. reflexivity.
    + intros Hlt. apply Qltb_false_le in E.
      destruct (Qlt_not_le _ _ Hlt E).
    + rewrite (xToFrame_defined _ x _ Hs). cbn [mbind option_bind].
      fold f0. rewrite E. reflexivity.
Qed.

Lemma EndLine_itemChange_clamps_witness :
  exists (w : World) (x' : Q),
    (w0 ← widget0; run w0 single_clip_ops) = Some w
    /\ EndLine_itemChange (store w) (view w) (pixel_of_frame 150) = Some x'
    /\ EndLine_itemChange (store w) (view w) x' = Some x'.
Proof.
  let o := eval vm_compute in (w0 ← widget0; run w0 single_clip_ops) in
  match o with
  | Some ?W =>
      destruct (EndLine_itemChange_clamps (store W) (view W) (pixel_of_frame 150))
        as (x' & f & H1 & _ & _ & _ & H2);
      [intros H; vm_compute in H; discriminate H|];
      exists W, x'
  end.
  split; [vm_compute; reflexivity|].
  split; [exact H1|exact H2].
Defined.

(** ** Zoom sliders *)

(** X10: for a slider value between 1 and 100, [setHZoom] leaves a
    horizontal zoom between 0.535 and 4 and [setVZoom] a vertical zoom
    between 0.515 and 2; both are positive. *)
Theorem slider_zoom_range (h : Store) (v : TimelineView) (value : Z) :
  1 <= value <= 100 ->
  (107 # 200 <= h_zoom (setHZoom h v value) <= 4)%Q
  /\ (103 # 200 <= v_zoom (setVZoom h v value) <= 2)%Q
  /\ (0 < h_zoom (setHZoom h v value))%Q
  /\ (0 < v_zoom (setVZoom h v value))%Q.
Proof.
  intros Hv.
  cbn [setHZoom setVZoom updateLayout with_h_zoom with_v_zoom h_zoom v_zoom].
  unfold Qle, Qlt, Qplus, Qmult, Qdiv, Qinv, inject_Z. simpl. lia.
Qed.

Lemma slider_zoom_range_witness :
  exists w : World,
    widget0 = Some w
    /\ (107 # 200 <= h_zoom (setHZoom (store w) (view w) 50) <= 4)%Q.
Proof.
  eexists. split; [vm_compute; reflexivity|].
  refine (proj1 (slider_zoom_range _ _ 50 _)). lia.
Defined.

(** ** The overlap test and the snap candidates *)

(** X11: for clips of positive duration the overlap test of the release
    handler holds exactly when the two half-open frame intervals share a
    frame; a clip butted against the end of another does not overlap it. *)
Theorem overlaps_iff_shared_frame (candidate duration : Z) (other : ClipData) :
  0 < duration -> 0 < duration_frames other ->
  (overlaps candidate duration other = true
   <-> exists f : Z,
         candidate <= f < candidate + duration
         /\ start_frame other <= f < start_frame other + duration_frames other)
  /\ overlaps (start_frame other + duration_frames other) duration other = false
  /\ overlaps (start_frame other - duration) duration other = false.
Proof.
  intros Hd Ho. unfold overlaps. split; [|split].
  - rewrite andb_true_iff, Z.ltb_lt, Z.gtb_gt. split.
    + intros [H1 H2]. exists (Z.max candidate (start_frame other)). lia.
    + intros (f & Hf1 & Hf2). lia.
  - apply andb_false_iff. left. apply Z.ltb_ge. lia.
  - apply andb_false_iff. right.
    destruct (Z.gtb_spec (start_frame other - duration + duration)
                (start_frame other)); [lia|reflexivity].
Qed.

Lemma overlaps_iff_shared_frame_witness :
  overlaps 100 20 (mkClipData "A" 50 50) = false
  /\ overlaps 30 20 (mkClipData "A" 50 50) = false.
Proof.
  refine (proj2 (overlaps_iff_shared_frame 45 20 (mkClipData "A" 50 50) _ _));
    cbn; lia.
Defined.

(** X12: every snap candidate the release handler collects lies within
    [SNAP_TOLERANCE] of the original candidate, each other clip contributes
    at most two, and a track holding only the dragged clip contributes
    none. *)
Theorem snap_options_within_tolerance (self : nat) (raw duration : Z)
    (others : list (nat * ClipData)) :
  Forall (fun c => Z.abs (c - raw) <= SNAP_TOLERANCE)
    (snap_options self raw duration others)
  /\ (length (snap_options self raw duration others) <= 2 * length others)%nat
  /\ (Forall (fun o : nat * ClipData => o.1 = self) others ->
      snap_options self raw duration others = []).
Proof.
  induction others as [|[r other] rest (IH1 & IH2 & IH3)].
  - split; [constructor|]. split; [cbn; lia|reflexivity].
  - cbn [snap_options].
    destruct (Nat.eqb_spec r self) as [->|Hne].
    + split; [exact IH1|]. split; [cbn [length]; lia|].
      intros Hall. apply IH3. apply Forall_cons in Hall. tauto.
    + split; [|split].
      * apply Forall_app. split; [|apply Forall_app; split; [|exact IH1]].
        -- destruct (Z.leb_spec
                       (Z.abs (raw - (start_frame other + duration_frames other)))
                       SNAP_TOLERANCE); constructor; [lia|constructor].
        -- destruct (Z.leb_spec (Z.abs (raw + duration - start_frame other))
                       SNAP_TOLERANCE); constructor; [lia|constructor].
      * rewrite !length_app. cbn [length].
        destruct (_ <=? _), (_ <=? _); cbn [length]; lia.
      * intros Hall. apply Forall_cons in Hall. destruct Hall as [Hr _].
        cbn in Hr. contradiction.
Qed.

Lemma snap_options_within_tolerance_witness :
  snap_options 0 7 10 [(0%nat, mkClipData "A" 0 10)] = [].
Proof.
  refine (proj2 (proj2 (snap_options_within_tolerance 0 7 10
                          [(0%nat, mkClipData "A" 0 10)])) _).
  repeat constructor.
Defined.

(** ** What a release leaves alone *)

Lemma mouseReleaseEvent_inv_view (w w' : World) (i : nat) (x : Q) :
  mouseReleaseEvent w i x = Some w' ->
  exists (it : ClipItem) (s : Z) (me : ClipData),
    clipItems (scene (view w)) !! i = Some it
    /\ clip_objs (store w) !! clip_data it = Some me
    /\ store w' = set_start_frame (store w) (clip_data it) s
    /\ view w' = move_item (view w) i
                   (frameToX (layout (view w)) (inject_Z s) (h_zoom (view w))).
Proof.
  unfold mouseReleaseEvent. intros H.
  destruct (clipItems (scene (view w)) !! i) as [it|] eqn:Hit; [|discriminate H].
  cbn -[committed_start] in H.
  destruct (committed_start (store w) (view w) it x) as [s|] eqn:Hs;
    [|discriminate H].
  cbn in H. injection H as <-.
  unfold committed_start in Hs.
  destruct (raw_frame _ _ _); [|discriminate Hs]. cbn -[chosen_frame] in Hs.
  destruct (clip_objs (store w) !! clip_data it) as [me|] eqn:Hme;
    [|discriminate Hs].
  exists it, s, me. auto.
Qed.

Lemma move_item_refs (v : TimelineView) (i : nat) (x : Q) :
  item_refs (scene (move_item v i x)) = item_refs (scene v).
Proof.
  unfold move_item, item_refs. cbn [scene clipItems].
  destruct (clipItems (scene v) !! i) as [it|] eqn:Hit; [|reflexivity].
  change (map ?f ?l) with (f <$> l).
  rewrite list_fmap_insert. cbn [track_data clip_data].
  apply list_insert_id. rewrite list_lookup_fmap, Hit. reflexivity.
Qed.

(** X13: a release changes nothing but the start frame of the released
    clip and the position of its item: the tracks, every title and
    duration, every other clip, the playhead, the zooms and the item
    references stay, and the end frame is not recomputed. *)
Theorem mouseReleaseEvent_frame (w w' : World) (i : nat) (x : Q) :
  mouseReleaseEvent w i x = Some w' ->
  exists it : ClipItem,
    clipItems (scene (view w)) !! i = Some it
    /\ track_objs (store w') = track_objs (store w)
    /\ length (clip_objs (store w')) = length (clip_objs (store w))
    /\ (forall (r : nat) (c : ClipData),
          clip_objs (store w) !! r = Some c ->
          exists c' : ClipData,
            clip_objs (store w') !! r = Some c'
            /\ title c' = title c
            /\ duration_frames c' = duration_frames c
            /\ (r <> clip_data it -> c' = c))
    /\ playhead_frame (view w') = playhead_frame (view w)
    /\ end_frame (view w') = end_frame (view w)
    /\ h_zoom (view w') = h_zoom (view w)
    /\ v_zoom (view w') = v_zoom (view w)
    /\ tracks (view w') = tracks (view w)
    /\ item_refs (scene (view w')) = item_refs (scene (view w)).
Proof.
  intros Hrel.
  destruct (mouseReleaseEvent_inv_view w w' i x Hrel)
    as (it & s & me & Hit & Hme & Hst & Hv).
  exists it. rewrite Hst, Hv. unfold set_start_frame. rewrite Hme.
  cbn [track_objs clip_objs].
  split; [exact Hit|]. split; [reflexivity|].
  split; [apply length_insert|]. split.
  - intros r c Hr. destruct (decide (r = clip_data it)) as [->|Hne].
    + rewrite Hme in Hr. injection Hr as <-.
      eexists. split.
      * apply list_lookup_insert_eq. apply (lookup_lt_Some _ _ _ Hme).
      * cbn. split; [reflexivity|]. split; [reflexivity|]. intros H. contradiction.
    + exists c. rewrite list_lookup_insert_ne by congruence. auto.
  - repeat (split; [reflexivity|]). apply move_item_refs.
Qed.

Lemma mouseReleaseEvent_frame_witness :
  exists (w w' : World),
    (w0 ← widget0; run w0 rejection_ops) = Some w
    /\ mouseReleaseEvent w 2 (pixel_of_frame 400) = Some w'
    /\ minimum_end_frame (store w') (view w') = 410
    /\ end_frame (view w') = inject_Z 234.
Proof.
  let o := eval vm_compute in (w0 ← widget0; run w0 rejection_ops) in
  match o with
  | Some ?W =>
      let o' := eval vm_compute in (mouseReleaseEvent W 2 (pixel_of_frame 400)) in
      match o' with
      | Some ?W' =>
          destruct (mouseReleaseEvent_frame W W' 2 (pixel_of_frame 400))
            as (it & _ & _ & _ & _ & _ & He & _);
          [vm_compute; reflexivity|];
          exists W, W'
      end
  end.
  split; [vm_compute; reflexivity|].
  split; [vm_compute; reflexivity|].
  split; [vm_compute; reflexivity|].
  rewrite He. vm_compute. reflexivity.
Defined.

(** ** Playback cycles *)

Lemma inject_Z_inj (a b : Z) : inject_Z a = inject_Z b -> a = b.
Proof. intros H. injection H as H. exact H. Qed.

(** One period: from playhead 0, [e] ticks at end frame [e]. *)
Lemma playback_one_period (h : Store) (v : TimelineView) (e : Z) :
  playhead_frame v = inject_Z 0 ->
  end_frame v = inject_Z e ->
  end_frame (updateLayout h v) = inject_Z e ->
  playback_trace h (Z.to_nat e) v = map inject_Z (seqZ 1 (e - 1) ++ [0])
  /\ playhead_frame (ticks h (Z.to_nat e) v) = inject_Z 0
  /\ end_frame (ticks h (Z.to_nat e) v) = inject_Z e
  /\ end_frame (updateLayout h (ticks h (Z.to_nat e) v)) = inject_Z e.
Proof.
  intros Hp He Hl.
  assert (He100 : 100 <= e).
  { rewrite updateLayout_end_frame in Hl. apply inject_Z_inj in Hl. lia. }
  destruct (playback_counts h e (Z.to_nat (e - 1)) 0 v Hp He Hl)
    as (Ht & Hq & Hr & Hs); [lia|].
  replace (Z.to_nat e) with (Z.to_nat (e - 1) + 1)%nat by lia.
  rewrite playback_trace_add, ticks_add, Ht.
  set (v1 := ticks h (Z.to_nat (e - 1)) v) in *.
  rewrite Z2Nat.id in * by lia.
  assert (Hlast : playhead_frame (playbackStep h v1) = inject_Z 0).
  { rewrite (playbackStep_integral h v1 (0 + (e - 1)) Hq), Hr, Qle_bool_inject_Z.
    destruct (Z.leb_spec e (0 + (e - 1) + 1)); [reflexivity|lia]. }
  cbn [playback_trace ticks]. rewrite Hlast.
  split; [rewrite map_app; reflexivity|]. split; [reflexivity|].
  split.
  - rewrite playbackStep_end_frame. exact Hs.
  - rewrite (updateLayout_end_frame_tracks h v1); [exact Hs|].
    apply playbackStep_tracks.
Qed.

(** X14: playback is periodic: from playhead 0 in a laid out view with end
    frame [e], the first [e] ticks show 1, ..., [e - 1], 0, and after any
    whole number of periods the playhead is 0 again with the end frame
    unchanged. *)
Theorem playback_periodic (h : Store) (v : TimelineView) (e : Z) :
  playhead_frame v = inject_Z 0 ->
  end_frame v = inject_Z e ->
  end_frame (updateLayout h v) = inject_Z e ->
  playback_trace h (Z.to_nat e) v = map inject_Z (seqZ 1 (e - 1) ++ [0])
  /\ (forall k : nat,
        playhead_frame (ticks h (k * Z.to_nat e) v) = inject_Z 0
        /\ end_frame (ticks h (k * Z.to_nat e) v) = inject_Z e).
Proof.
  intros Hp He Hl.
  split; [apply (playback_one_period h v e Hp He Hl)|].
  assert (Hk : forall k : nat,
             playhead_frame (ticks h (k * Z.to_nat e) v) = inject_Z 0
             /\ end_frame (ticks h (k * Z.to_nat e) v) = inject_Z e
             /\ end_frame (updateLayout h (ticks h (k * Z.to_nat e) v))
                = inject_Z e).
  { induction k as [|k (IH1 & IH2 & IH3)]; [auto|].
    replace (S k * Z.to_nat e)%nat with (k * Z.to_nat e + Z.to_nat e)%nat by lia.
    rewrite ticks_add.
    destruct (playback_one_period h _ e IH1 IH2 IH3) as (_ & H1 & H2 & H3).
    auto. }
  intros k. destruct (Hk k) as (H1 & H2 & _). auto.
Qed.

Lemma playback_periodic_witness :
  exists w : World,
    (w0 ← widget0; run w0 single_clip_ops) = Some w
    /\ playhead_frame (ticks (store w) (3 * 224) (view w)) = inject_Z 0.
Proof.
  eexists. split; [vm_compute; reflexivity|].
  refine (proj1 (proj2 (playback_periodic _ _ 224 _ _ _) 3%nat)); reflexivity.
Defined.

(** ** Adding a track *)

Lemma minimum_end_frame_app (h : Store) (v v' : TimelineView) (ts : list nat) :
  tracks v' = tracks v ++ ts ->
  minimum_end_frame h v <= minimum_end_frame h v'.
Proof.
  intros Ht. rewrite !minimum_end_frame_view_clips. unfold view_clips.
  rewrite Ht, map_app, concat_app, fold_left_app.
  apply (fold_end_bounds (concat (map (track_clips h) ts))).
Qed.

(** X15: [addTrack] appends the track and never lowers
    [minimum_end_frame()] or the end frame. *)
Theorem addTrack_monotone (h : Store) (v : TimelineView) (track : nat) :
  tracks (addTrack h v track) = tracks v ++ [track]
  /\ minimum_end_frame h v <= minimum_end_frame h (addTrack h v track)
  /\ (end_frame (updateLayout h v) <= end_frame (addTrack h v track))%Q.
Proof.
  split; [reflexivity|].
  assert (Hm : minimum_end_frame h v <= minimum_end_frame h (addTrack h v track))
    by (apply (minimum_end_frame_app h v _ [track]); reflexivity).
  split; [exact Hm|].
  unfold addTrack. rewrite !updateLayout_end_frame. rewrite <- Zle_Qle.
  change (minimum_end_frame h (updateLayout h (with_tracks v (tracks v ++ [track]))))
    with (minimum_end_frame h (addTrack h v track)).
  rewrite (minimum_end_frame_tracks h v (updateLayout h v) (updateLayout_tracks h v)).
  lia.
Qed.

(** ** The clip items of a layout *)

Lemma track_clips_elem (h : Store) (t r : nat) (c : ClipData) :
  (r, c) ∈ track_clips h t
  <-> exists tr : TrackData,
        track_objs h !! t = Some tr /\ r ∈ clips tr /\ clip_objs h !! r = Some c.
Proof.
  unfold track_clips. destruct (track_objs h !! t) as [tr|].
  - rewrite elem_of_deref. split.
    + intros [Hr Hc]. exists tr. auto.
    + intros (tr' & Htr & Hr & Hc). injection Htr as <-. auto.
  - split; [intros H; apply elem_of_nil in H; destruct H|].
    intros (tr' & Htr & _). discriminate Htr.
Qed.

Lemma layout_items_refs (h : Store) (v : TimelineView)
    (trs : list (nat * TrackData)) (y : Q) :
  map (fun it => (track_data it, clip_data it)) (layout_items h v trs y)
  = concat (map (fun t : nat * TrackData =>
                   map (fun c : nat * ClipData => (t.1, c.1)) (track_clips h t.1))
              trs).
Proof.
  revert y. induction trs as [|track rest IH]; intros y; [reflexivity|].
  cbn [layout_items map concat]. rewrite map_app, IH, map_map. reflexivity.
Qed.

(** What [updateLayout] records in each clip item. *)
Lemma layout_items_spec (h : Store) (v : TimelineView)
    (trs : list (nat * TrackData)) (y : Q) (it : ClipItem) :
  it ∈ layout_items h v trs y ->
  exists (tr : TrackData) (me : ClipData),
    (track_data it, tr) ∈ trs
    /\ (clip_data it, me) ∈ track_clips h (track_data it)
    /\ item_x it = frameToX (layout v) (inject_Z (start_frame me)) (h_zoom v)
    /\ item_width it
       = ((inject_Z (duration_frames me) * BASE_PIXELS_PER_FRAME (layout v)
           + BASE_PIXELS_PER_FRAME (layout v)) * h_zoom v)%Q
    /\ item_height it = (height tr * v_zoom v)%Q.
Proof.
  revert y. induction trs as [|[t tr] rest IH]; intros y Hin.
  - apply elem_of_nil in Hin. destruct Hin.
  - cbn [layout_items] in Hin. apply elem_of_app in Hin. destruct Hin as [Hin|Hin].
    + apply list_elem_of_In, in_map_iff in Hin.
      destruct Hin as ([r me] & <- & Hc). apply list_elem_of_In in Hc.
      exists tr, me. cbn. split; [apply list_elem_of_here|]. auto.
    + destruct (IH _ Hin) as (tr' & me & Ht & Hrest).
      exists tr', me. split; [apply list_elem_of_further; exact Ht|exact Hrest].
Qed.

(** X16: [updateLayout] builds one clip item per clip of each track of the
    view, in track order then clip order; each item names an existing clip
    of its track, sits at the pixel of the clip's start frame, is
    [(duration_frames * BASE_PIXELS_PER_FRAME + BASE_PIXELS_PER_FRAME) *
    h_zoom] wide and has the zoomed track height. *)
Theorem updateLayout_clip_items (h : Store) (v : TimelineView) :
  item_refs (scene (updateLayout h v))
  = concat (map (fun t : nat * TrackData =>
                   map (fun c : nat * ClipData => (t.1, c.1)) (track_clips h t.1))
              (deref (track_objs h) (tracks v)))
  /\ Forall
       (fun it =>
          exists (tr : TrackData) (me : ClipData),
            track_data it ∈ tracks v
            /\ track_objs h !! track_data it = Some tr
            /\ clip_data it ∈ clips tr
            /\ clip_objs h !! clip_data it = Some me
            /\ item_x it
               = frameToX (layout v) (inject_Z (start_frame me)) (h_zoom v)
            /\ item_width it
               = ((inject_Z (duration_frames me) * BASE_PIXELS_PER_FRAME (layout v)
                   + BASE_PIXELS_PER_FRAME (layout v)) * h_zoom v)%Q
            /\ item_height it = (height tr * v_zoom v)%Q)
       (clipItems (scene (updateLayout h v))).
Proof.
  split; [apply layout_items_refs|].
  apply Forall_forall. intros it Hin.
  cbn [updateLayout scene clipItems] in Hin.
  destruct (layout_items_spec h v _ _ it Hin) as (tr & me & Ht & Hc & Hx & Hw & Hh).
  apply elem_of_deref in Ht. destruct Ht as [Ht Htr].
  apply track_clips_elem in Hc. destruct Hc as (tr' & Htr' & Hr & Hme).
  rewrite Htr in Htr'. injection Htr' as <-.
  exists tr, me. repeat (split; [assumption|]). exact Hh.
Qed.

(** ** Releasing a clip where the layout put it *)

Lemma py_round_integral (q : Q) (n : Z) : (q == inject_Z n)%Q -> py_round q = n.
Proof.
  unfold Qeq, py_round. cbn [Qnum Qden inject_Z]. intros H.
  rewrite Z.mul_1_r in H. rewrite H, Z.div_mul, Z.mod_mul by lia.
  cbn. reflexivity.
Qed.

Lemma set_start_frame_same (h : Store) (c : nat) (me : ClipData) :
  clip_objs h !! c = Some me -> set_start_frame h c (start_frame me) = h.
Proof.
  intros Hme. unfold set_start_frame. rewrite Hme.
  destruct h as [cs ts], me as [t s d]. cbn in *.
  rewrite list_insert_id by exact Hme. reflexivity.
Qed.

(** X17: in a freshly laid out view, releasing a clip item at the position
    the layout gave it changes nothing at all, provided the division is
    defined and the clip's start frame is not negative. *)
Theorem release_in_place (h : Store) (v : TimelineView) (i : nat)
    (it : ClipItem) (me : ClipData) :
  ~ (BASE_PIXELS_PER_FRAME (layout v) * h_zoom v == 0)%Q ->
  clipItems (scene (updateLayout h v)) !! i = Some it ->
  clip_objs h !! clip_data it = Some me ->
  0 <= start_frame me ->
  committed_start h (updateLayout h v) it (item_x it) = Some (start_frame me)
  /\ mouseReleaseEvent (mkWorld h (updateLayout h v)) i (item_x it)
     = Some (mkWorld h (updateLayout h v)).
Proof.
  intros Hs Hit Hme Hge.
  assert (Hin : it ∈ clipItems (scene (updateLayout h v))).
  { apply list_elem_of_lookup. eauto. }
  cbn [updateLayout scene clipItems] in Hin.
  destruct (layout_items_spec h v _ _ it Hin) as (tr & me' & _ & Hc & Hx & _).
  apply track_clips_elem in Hc. destruct Hc as (_ & _ & _ & Hme').
  rewrite Hme in Hme'. injection Hme' as <-.
  assert (Hcs : committed_start h (updateLayout h v) it (item_x it)
                = Some (start_frame me)).
  { rewrite (committed_start_trivial _ _ _ _ me Hme).
    unfold trivial_resolver, raw_frame. cbn [updateLayout layout h_zoom].
    rewrite Hx.
    destruct (xToFrame_frameToX (layout v) (inject_Z (start_frame me)) (h_zoom v) Hs)
      as (g & Hg & Hgs).
    rewrite Hg. cbn. rewrite (py_round_integral g _ Hgs). f_equal. lia. }
  split; [exact Hcs|].
  unfold mouseReleaseEvent. cbn [view store]. rewrite Hit.
  cbn -[committed_start updateLayout]. rewrite Hcs.
  cbn -[updateLayout]. rewrite (set_start_frame_same h _ me Hme).
  f_equal. f_equal.
  unfold move_item. rewrite Hit.
  cbn [updateLayout layout h_zoom] in *. rewrite <- Hx.
  rewrite list_insert_id; [reflexivity|].
  cbn [scene clipItems]. cbn [scene clipItems] in Hit.
  rewrite Hit. destruct it; reflexivity.
Qed.

Lemma release_in_place_witness :
  exists (w : World) (it : ClipItem),
    (w0 ← widget0; run w0 snap_ops) = Some w
    /\ clipItems (scene (updateLayout (store w) (view w))) !! 1%nat = Some it
    /\ committed_start (store w) (updateLayout (store w) (view w)) it (item_x it)
       = Some 300.
Proof.
  eexists. eexists.
  split; [vm_compute; reflexivity|].
  split; [vm_compute; reflexivity|].
  refine (proj1 (release_in_place _ _ 1%nat _ (mkClipData "B" 300 20) _ _ _ _)).
  - intros H. vm_compute in H. discriminate H.
  - vm_compute; reflexivity.
  - reflexivity.
  - cbn. lia.
Defined.

(** ** Sessions that cannot raise *)

Lemma updateLayout_drivable (h : Store) (v : TimelineView) :
  (0 < BASE_PIXELS_PER_FRAME (layout v))%Q -> (0 < h_zoom v)%Q ->
  drivable (mkWorld h (updateLayout h v)).
Proof.
  intros Hb Hz. split; [exact Hb|]. split; [exact Hz|].
  apply Forall_forall. intros it Hin. cbn [view store updateLayout scene clipItems] in *.
  destruct (layout_items_spec h v _ _ it Hin) as (tr & me & _ & Hc & _).
  apply track_clips_elem in Hc. destruct Hc as (_ & _ & _ & Hme). eauto.
Qed.

Lemma setHZoom_positive (value : Z) :
  1 <= value -> (0 < (1 # 2) + inject_Z value / 100 * (7 # 2))%Q.
Proof.
  intros Hv. unfold Qlt, Qplus, Qmult, Qdiv, Qinv, inject_Z. simpl. lia.
Qed.

Lemma step_drivable (w w' : World) (o : op) :
  drivable w -> slider_range o -> step w o = Some w' -> drivable w'.
Proof.
  intros (Hb & Hz & Hit) Ho Hs.
  destruct o; cbn -[mouseReleaseEvent updateLayout] in Hs.
  - injection Hs as <-. split; [exact Hb|]. split; [exact Hz|].
    cbn [store view new_ClipData fst clip_objs].
    eapply Forall_impl; [exact Hit|]. intros it [me Hme]. exists me.
    apply lookup_app_l_Some. exact Hme.
  - injection Hs as <-. split; [exact Hb|]. split; [exact Hz|exact Hit].
  - unfold add_clip in Hs.
    destruct (track_objs (store w) !! track); [|discriminate Hs]. cbn in Hs.
    destruct (clip_objs (store w) !! clip); [|discriminate Hs]. cbn in Hs.
    injection Hs as <-. split; [exact Hb|]. split; [exact Hz|exact Hit].
  - destruct (track_objs (store w) !! track); [|discriminate Hs].
    cbn -[updateLayout] in Hs. injection Hs as <-.
    apply updateLayout_drivable; assumption.
  - injection Hs as <-. apply updateLayout_drivable; [exact Hb|].
    cbn [with_h_zoom h_zoom]. apply setHZoom_positive. cbn in Ho. lia.
  - injection Hs as <-. apply updateLayout_drivable; assumption.
  - injection Hs as <-. apply updateLayout_drivable; assumption.
  - injection Hs as <-. apply updateLayout_drivable; assumption.
  - injection Hs as <-. unfold playbackStep.
    cbn [playhead_frame end_frame with_playhead_frame].
    destruct (Qgeb _ _); apply updateLayout_drivable; assumption.
  - injection Hs as <-. apply updateLayout_drivable; assumption.
  - unfold updatePlayhead in Hs. destruct (xToFrame _ _ _); [|discriminate Hs].
    cbn -[updateLayout] in Hs. injection Hs as <-.
    apply updateLayout_drivable; assumption.
  - destruct (EndLine_itemChange _ _ _); [|discriminate Hs].
    cbn -[updateLayout] in Hs. unfold updateEndFrame in Hs.
    destruct (xToFrame _ _ _); [|discriminate Hs].
    cbn -[updateLayout] in Hs. injection Hs as <-.
    apply updateLayout_drivable; assumption.
  - destruct (mouseReleaseEvent_inv_view w w' i x Hs)
      as (it & s & me & Hi & Hme & Hst & Hv).
    unfold drivable. rewrite Hst, Hv.
    split; [exact Hb|]. split; [exact Hz|].
    unfold set_start_frame. rewrite Hme. unfold move_item. rewrite Hi.
    cbn [view store scene clipItems clip_objs].
    assert (Hkeep : forall it', is_Some (clip_objs (store w) !! clip_data it') ->
              is_Some (<[clip_data it :=
                           mkClipData (title me) s (duration_frames me)]>
                         (clip_objs (store w)) !! clip_data it')).
    { intros it' H'. apply lookup_lt_is_Some. rewrite length_insert.
      apply lookup_lt_is_Some. exact H'. }
    apply Forall_insert.
    + eapply Forall_impl; [exact Hit|]. exact Hkeep.
    + cbn [clip_data]. apply Hkeep. eauto.
Qed.

Lemma run_drivable (ops : list op) :
  forall w w' : World,
    drivable w -> Forall slider_range ops -> run w ops = Some w' -> drivable w'.
Proof.
  induction ops as [|o ops IH]; intros w w' Hw Hops Hrun.
  - cbn in Hrun. injection Hrun as <-. exact Hw.
  - cbn [run] in Hrun. apply Forall_cons in Hops. destruct Hops as [Ho Hops].
    destruct (step w o) as [w1|] eqn:Hstep; [|discriminate Hrun].
    cbn -[run] in Hrun.
    apply (IH w1 w'); [|exact Hops|exact Hrun].
    apply (step_drivable w w1 o Hw Ho Hstep).
Qed.

Lemma EndLine_itemChange_defined (h : Store) (v : TimelineView) (x : Q) :
  ~ (BASE_PIXELS_PER_FRAME (layout v) * h_zoom v == 0)%Q ->
  exists x' : Q,
    EndLine_itemChange h v x = Some x'
    /\ is_Some (xToFrame (layout v) x' (h_zoom v)).
Proof.
  intros Hs. unfold EndLine_itemChange.
  rewrite (xToFrame_defined _ x _ Hs). cbn [mbind option_bind].
  eexists. split; [reflexivity|].
  rewrite xToFrame_defined by exact Hs. eauto.
Qed.

Lemma drivable_scale (w : World) :
  drivable w ->
  ~ (BASE_PIXELS_PER_FRAME (layout (view w)) * h_zoom (view w) == 0)%Q.
Proof.
  intros (Hb & Hz & _). apply scale_nonzero; [|exact Hz].
  intros H. rewrite H in Hb. exact (Qlt_irrefl 0 Hb).
Qed.

(** X18: in a session that starts from a new widget with a positive
    [BASE_PIXELS_PER_FRAME] and sends only slider values between 1 and 100,
    the zoom stays positive and every clip item names a clip; no drag of
    the playhead or the end marker raises, and a release raises for no
    existing clip item. *)
Theorem session_never_raises (c : Theme.config) (w0 w : World) (ops : list op) :
  TimelineWidget_init c = Some w0 ->
  (0 < BASE_PIXELS_PER_FRAME (layout (view w0)))%Q ->
  Forall slider_range ops ->
  run w0 ops = Some w ->
  drivable w
  /\ (forall x : Q, is_Some (step w (PlayheadDrag x)))
  /\ (forall x : Q, is_Some (step w (EndLineDrag x)))
  /\ (forall (i : nat) (x : Q),
        is_Some (step w (ClipRelease i x))
        <-> is_Some (clipItems (scene (view w)) !! i)).
Proof.
  intros Hinit Hb Hops Hrun.
  assert (H0 : drivable w0).
  { unfold TimelineWidget_init in Hinit.
    destruct (TimelineView_init _) as [v0|]; [|discriminate Hinit].
    cbn -[setHZoom] in Hinit. injection Hinit as <-.
    cbn [view] in Hb. apply updateLayout_drivable; [exact Hb|].
    cbn [with_h_zoom h_zoom]. apply setHZoom_positive. lia. }
  pose proof (run_drivable ops w0 w H0 Hops Hrun) as Hw.
  pose proof (drivable_scale w Hw) as Hs.
  split; [exact Hw|]. split; [|split].
  - intros x. cbn [step]. unfold updatePlayhead.
    rewrite (xToFrame_defined _ x _ Hs). cbn. eauto.
  - intros x. cbn [step].
    destruct (EndLine_itemChange_defined (store w) (view w) x Hs)
      as (x' & H1 & f' & H2).
    rewrite H1. cbn -[updateEndFrame]. unfold updateEndFrame. rewrite H2.
    cbn. eauto.
  - intros i x. cbn [step]. unfold mouseReleaseEvent. split.
    + intros [w' H].
      destruct (clipItems (scene (view w)) !! i); [eauto|discriminate H].
    + intros [it Hit]. rewrite Hit. cbn -[committed_start].
      destruct Hw as (_ & _ & Hall). rewrite Forall_forall in Hall.
      destruct (Hall it) as [me Hme]; [apply list_elem_of_lookup; eauto|].
      rewrite (committed_start_trivial _ _ _ _ me Hme).
      unfold trivial_resolver, raw_frame.
      rewrite (xToFrame_defined _ x _ Hs). cbn. eauto.
Qed.

Lemma session_never_raises_witness :
  exists w0 w : World,
    widget0 = Some w0
    /\ run w0 (snap_ops ++ [SetHZoom 100; ClipRelease 0 (0 # 1)]) = Some w
    /\ is_Some (step w (EndLineDrag (0 # 1))).
Proof.
  eexists. eexists.
  split; [vm_compute; reflexivity|].
  split; [vm_compute; reflexivity|].
  refine (proj1 (proj2 (proj2
            (session_never_raises Theme.CNone _ _
               (snap_ops ++ [SetHZoom 100; ClipRelease 0 (0 # 1)]) _ _ _ _))) _).
  - vm_compute; reflexivity.
  - reflexivity.
  - unfold snap_ops. repeat constructor; cbn; lia.
  - vm_compute; reflexivity.
Defined.

(** ** Themes: fallbacks and completeness *)

Lemma THEMES_cases (name : string) (preset : gmap string Theme.value) :
  Theme.THEMES !! name = Some preset ->
  (name = "dark"%string /\ preset = Theme.dark)
  \/ (name = "light"%string /\ preset = Theme.light).
Proof.
  intros H. apply elem_of_list_to_map_2 in H.
  apply elem_of_cons in H. destruct H as [H|H].
  - injection H as -> ->. left. auto.
  - apply list_elem_of_singleton in H. injection H as -> ->. right. auto.
Qed.

Lemma dark_keys_in_light (k : string) :
  is_Some (Theme.dark !! k) -> is_Some (Theme.light !! k).
Proof.
  intros [v H]. apply elem_of_list_to_map_2 in H.
  repeat (apply elem_of_cons in H; destruct H as [H|H];
          [injection H as -> ->; vm_compute; eauto|]).
  apply elem_of_nil in H. destruct H.
Qed.

(** X19: whatever the config, the theme [get_theme] returns has every key
    of the dark preset and every layout constant, so no later lookup of
    one of them can miss. *)
Theorem get_theme_has_every_key (c : Theme.config) (k : string) :
  is_Some (Theme.dark !! k) \/ is_Some (Theme.DEFAULT_CONSTANTS !! k) ->
  is_Some (Theme.get_theme c !! k).
Proof.
  intros Hk. unfold Theme.get_theme. rewrite update_lookup.
  assert (Hdark : is_Some (match Theme.dark !! k with
                           | Some v => Some v
                           | None => Theme.DEFAULT_CONSTANTS !! k
                           end)).
  { destruct (Theme.dark !! k); [eauto|]. destruct Hk as [[v H]|H]; [discriminate H|exact H]. }
  destruct c as [|name|overrides].
  - exact Hdark.
  - destruct (Theme.THEMES !! name) as [preset|] eqn:E; [|exact Hdark].
    destruct (THEMES_cases name preset E) as [[_ ->]|[_ ->]]; [exact Hdark|].
    destruct (Theme.dark !! k) eqn:Ed.
    + destruct (dark_keys_in_light k) as [v' ->]; eauto.
    + destruct (Theme.light !! k); [eauto|exact Hdark].
  - rewrite update_lookup. destruct (overrides !! k); [eauto|exact Hdark].
Qed.

Lemma get_theme_has_every_key_witness :
  is_Some (Theme.get_theme (Theme.CStr "light") !! "TRACK_SPACING"%string).
Proof.
  apply (get_theme_has_every_key (Theme.CStr "light") "TRACK_SPACING").
  right. vm_compute. eauto.
Defined.

(** X20: [get_theme] falls back to the dark theme: a name that is not a
    preset, in fact every name but "light", and the empty dict all give
    the theme of [get_theme()]. *)
Theorem get_theme_falls_back_to_dark :
  (forall name : string,
      Theme.THEMES !! name = None ->
      Theme.get_theme (Theme.CStr name) = Theme.get_theme Theme.CNone)
  /\ (forall name : string,
        name <> "light"%string ->
        Theme.get_theme (Theme.CStr name) = Theme.get_theme Theme.CNone)
  /\ Theme.get_theme (Theme.CDict ∅) = Theme.get_theme Theme.CNone
  /\ Theme.get_theme (Theme.CStr "light") <> Theme.get_theme Theme.CNone.
Proof.
  split; [|split; [|split]].
  - intros name H. unfold Theme.get_theme. rewrite H. reflexivity.
  - intros name Hne. unfold Theme.get_theme.
    destruct (Theme.THEMES !! name) as [preset|] eqn:E; [|reflexivity].
    destruct (THEMES_cases name preset E) as [[_ ->]|[-> _]];
      [reflexivity|contradiction].
  - unfold Theme.get_theme, Theme.update. rewrite (left_id_L ∅ (∪)). reflexivity.
  - intros H.
    assert (Hk : Theme.get_theme (Theme.CStr "light") !! "ruler_bg"%string
                 = Theme.get_theme Theme.CNone !! "ruler_bg"%string)
      by (rewrite H; reflexivity).
    vm_compute in Hk. discriminate Hk.
Qed.

Lemma get_theme_falls_back_to_dark_witness :
  Theme.get_theme (Theme.CStr "solarized") = Theme.get_theme Theme.CNone.
Proof.
  apply (proj1 get_theme_falls_back_to_dark "solarized"%string).
  vm_compute. reflexivity.
Defined.

(** X21: a widget built from a preset name, or from a dict that overrides
    no layout constant, starts in the state of the default widget: empty
    store, default layout constants, zooms 0.535 and 1, playhead 0 and end
    frame 100. *)
Theorem TimelineWidget_init_default :
  (forall name : string, TimelineWidget_init (Theme.CStr name) = widget0)
  /\ (forall overrides : gmap string Theme.value,
        (forall k : string,
            is_Some (Theme.DEFAULT_CONSTANTS !! k) -> overrides !! k = None) ->
        TimelineWidget_init (Theme.CDict overrides) = widget0)
  /\ (exists w : World,
        widget0 = Some w
        /\ store w = empty_store
        /\ layout (view w) = default_layout
        /\ (h_zoom (view w) == 107 # 200)%Q
        /\ v_zoom (view w) = 1%Q
        /\ playhead_frame (view w) = 0%Q
        /\ end_frame (view w) = inject_Z 100
        /\ tracks (view w) = []
        /\ clipItems (scene (view w)) = []).
Proof.
  assert (Hlay : forall c : Theme.config,
             (forall k : string,
                 is_Some (Theme.DEFAULT_CONSTANTS !! k) ->
                 Theme.get_theme c !! k = Theme.DEFAULT_CONSTANTS !! k) ->
             TimelineWidget_init c = widget0).
  { intros c Hc. unfold widget0, TimelineWidget_init, TimelineView_init.
    assert (Hl : layout_of_theme (Theme.get_theme c) = Some default_layout).
    { unfold layout_of_theme, theme_number.
      rewrite !Hc by (vm_compute; eauto). vm_compute. reflexivity. }
    rewrite Hl. vm_compute. reflexivity. }
  split; [|split].
  - intros name. apply Hlay. intros k [v Hk].
    unfold Theme.get_theme. rewrite update_lookup.
    assert (Hd : Theme.dark !! k = None /\ Theme.light !! k = None).
    { apply elem_of_list_to_map_2 in Hk.
      repeat (apply elem_of_cons in Hk; destruct Hk as [Hk|Hk];
              [injection Hk as -> ->; vm_compute; auto|]).
      apply elem_of_nil in Hk. destruct Hk. }
    destruct Hd as [Hd Hl].
    destruct (Theme.THEMES !! name) as [preset|] eqn:E.
    + destruct (THEMES_cases name preset E) as [[_ ->]|[_ ->]].
      * rewrite Hd. reflexivity.
      * rewrite Hl. reflexivity.
    + rewrite Hd. reflexivity.
  - intros overrides Hov. apply Hlay. intros k Hk.
    unfold Theme.get_theme. rewrite !update_lookup, (Hov k Hk).
    destruct Hk as [v Hk]. apply elem_of_list_to_map_2 in Hk.
    repeat (apply elem_of_cons in Hk; destruct Hk as [Hk|Hk];
            [injection Hk as -> ->; vm_compute; auto|]).
    apply elem_of_nil in Hk. destruct Hk.
  - eexists. split; [vm_compute; reflexivity|].
    repeat (split; [reflexivity|]). reflexivity.
Qed.

Lemma TimelineWidget_init_default_witness :
  TimelineWidget_init
    (Theme.CDict {[ "clip_fill"%string := Theme.VStr "#FF0000" ]}) = widget0.
Proof.
  apply (proj1 (proj2 TimelineWidget_init_default)).
  intros k [v Hk]. apply lookup_singleton_ne.
  apply elem_of_list_to_map_2 in Hk.
  repeat (apply elem_of_cons in Hk; destruct Hk as [Hk|Hk];
          [injection Hk as -> ->; discriminate|]).
  apply elem_of_nil in Hk. destruct Hk.
Defined.

(** ** Bounds on a tick *)




(** ** The height of the scene *)

Lemma deref_app {A} (objs : list A) (l1 l2 : list nat) :
  deref objs (l1 ++ l2) = deref objs l1 ++ deref objs l2.
Proof. unfold deref. apply omap_app. Qed.

(** X23: with no tracks the scene is [TOP_MARGIN + bottom_frame_offset]
    high; adding a track extends the running height of the earlier tracks
    by the track's zoomed height plus [TRACK_SPACING] before the bottom
    offset is added, so the scene never gets lower when that increment is
    not negative. *)
Theorem addTrack_scene_height (h : Store) (v : TimelineView) (track : nat)
    (tr : TrackData) :
  track_objs h !! track = Some tr ->
  scene_height (scene (updateLayout h v))
  = (stacked_height h v + bottom_frame_offset v)%Q
  /\ scene_height (scene (addTrack h v track))
     = (stacked_height h v + (height tr * v_zoom v + TRACK_SPACING (layout v))
        + bottom_frame_offset v)%Q
  /\ ((0 <= height tr * v_zoom v + TRACK_SPACING (layout v))%Q ->
      (scene_height (scene (updateLayout h v))
       <= scene_height (scene (addTrack h v track)))%Q)
  /\ (tracks v = [] ->
      scene_height (scene (updateLayout h v))
      = (TOP_MARGIN (layout v) + bottom_frame_offset v)%Q).
Proof.
  intros Htr.
  assert (Hadd : scene_height (scene (addTrack h v track))
                 = (stacked_height h v
                    + (height tr * v_zoom v + TRACK_SPACING (layout v))
                    + bottom_frame_offset v)%Q).
  { unfold addTrack. cbn [updateLayout scene scene_height with_tracks
                          bottom_frame_offset].
    unfold stacked_height. cbn [with_tracks tracks v_zoom layout].
    assert (Hd : deref (track_objs h) [track] = [(track, tr)]).
    { unfold deref. cbn. rewrite Htr. reflexivity. }
    rewrite deref_app, fold_left_app, Hd. reflexivity. }
  split; [reflexivity|]. split; [exact Hadd|]. split.
  - intros Hge. rewrite Hadd. cbn [updateLayout scene scene_height].
    apply Qplus_le_compat; [|apply Qle_refl].
    rewrite <- (Qplus_0_r (stacked_height h v)) at 1.
    apply Qplus_le_compat; [apply Qle_refl|exact Hge].
  - intros Hnil. cbn [updateLayout scene scene_height].
    unfold stacked_height. rewrite Hnil. reflexivity.
Qed.

Lemma addTrack_scene_height_witness :
  exists w w' : World,
    (w0 ← widget0; run w0 [NewTrack "Video 1" None]) = Some w
    /\ step w (AddTrack 0) = Some w'
    /\ (scene_height (scene (updateLayout (store w) (view w)))
        <= scene_height (scene (view w')))%Q.
Proof.
  let o := eval vm_compute in (w0 ← widget0; run w0 [NewTrack "Video 1" None]) in
  match o with
  | Some ?W =>
      exists W, (mkWorld (store W) (addTrack (store W) (view W) 0));
      split; [vm_compute; reflexivity|];
      split; [reflexivity|];
      refine (proj1 (proj2 (proj2
                (addTrack_scene_height (store W) (view W) 0%nat
                   (mkTrackData "Video 1" (inject_Z 60) []) eq_refl))) _)
  end.
  vm_compute. discriminate.
Defined.
